(** * Galata in-page test harness ([packages/galata/src/inpage/index.ts])

    A shallow embedding of the [JLabTestInpage] class and the properties of
    its synchronisation and notebook primitives.

    Conventions of the embedding:
    - a JavaScript string is the list of its UTF-16 code units;
    - time is counted in milliseconds on [Z]; timers are ideal (a callback
      runs exactly when it is due), and a delay is taken as it is given, as
      the host does for delays below 2^31;
    - the numbers of [notebookWillScroll] are IEEE 754 double-precision
      numbers, the kernel's primitive floats;
    - a promise that depends on polling is computed with a [fuel] that bounds
      the number of timer events simulated; [None] means "still pending
      after that many events";
    - the host application (JupyterLab) is an external collaborator: what it
      answers is given by oracles (fields of records, or section variables).
*)

From Stdlib Require Import ZArith QArith Qabs Qpower Lia List String Ascii.
From Stdlib Require Floats.
From stdpp Require Import base list gmap strings.

Local Open Scope Z_scope.

(* ===================================================================== *)
(** * Part I: the embedding                                               *)
(* ===================================================================== *)

(** ** JavaScript strings *)
Module Js.

Definition code_unit := N.
Definition jsstring := list code_unit.

(** A string literal of the source, as a list of code units. *)
Definition lit (s : string) : jsstring :=
  map N_of_ascii (list_ascii_of_string s).

(** ECMAScript [WhiteSpace] and [LineTerminator] code points: the
    characters [String.prototype.trim] removes. *)
Definition isWhiteSpace (c : code_unit) : bool :=
  let c := Z.of_N c in
  (c =? 0x09) || (c =? 0x0A) || (c =? 0x0B) || (c =? 0x0C) || (c =? 0x0D)
  || (c =? 0x20) || (c =? 0xA0) || (c =? 0x1680)
  || ((0x2000 <=? c) && (c <=? 0x200A))
  || (c =? 0x2028) || (c =? 0x2029) || (c =? 0x202F) || (c =? 0x205F)
  || (c =? 0x3000) || (c =? 0xFEFF).

Fixpoint trimStart (s : jsstring) : jsstring :=
  match s with
  | [] => []
  | c :: s' => if isWhiteSpace c then trimStart s' else s
  end.

Definition trimEnd (s : jsstring) : jsstring := rev (trimStart (rev s)).

Definition trim (s : jsstring) : jsstring := trimEnd (trimStart s).

(** Truthiness of a string: only the empty string is falsy. *)
Definition truthy (s : jsstring) : bool :=
  match s with [] => false | _ => true end.

Definition eqb (a b : jsstring) : bool := bool_decide (a = b).

End Js.

(** ** The notebook document model, [addNotebookCell] and [setNotebookCell]
    (index.ts, lines 130-173) *)
Module NotebookModel.
Import Js.

(** [nbformat.CellType] *)
Inductive CellType := code | markdown | raw.

(** What [contentFactory.createCell(cellType, {cell: {cell_type, source,
    metadata: {}}})] builds. *)
Record ICellModel := mkCell {
  cell_type : CellType;
  source : jsstring
}.

(** Calls made on the host's notebook, in the order they are made. *)
Inductive host_call :=
| InsertBelow
| BeginCompoundOperation
| CellsSet (index : Z) (cell : ICellModel)
| EndCompoundOperation
| Update.

(** [nbPanel.content]: the cell list ([nb.model.cells], mirrored one to one
    by [nb.widgets]), the active cell, and the log of host calls. *)
Record Notebook := mkNotebook {
  cells : list ICellModel;
  activeCellIndex : Z;
  calls : list host_call
}.

Definition record (c : host_call) (nb : Notebook) : Notebook :=
  mkNotebook (cells nb) (activeCellIndex nb) (calls nb ++ [c]).

(** [nb.widgets.length] *)
Definition numCells (nb : Notebook) : Z := Z.of_nat (length (cells nb)).

Definition createCell (cellType : CellType) (src : jsstring) : ICellModel :=
  mkCell cellType src.

(** [nb.model.cells.set(index, cell)].  A negative key is not an element of
    a JavaScript array, so the elements stay as they are; an index past the
    end is never passed by the callers below ([set_index_in_range]). *)
Definition cells_set (index : Z) (cell : ICellModel) (nb : Notebook) : Notebook :=
  let nb := record (CellsSet index cell) nb in
  if index <? 0 then nb
  else mkNotebook (<[Z.to_nat index := cell]> (cells nb))
                  (activeCellIndex nb) (calls nb).

Definition beginCompoundOperation := record BeginCompoundOperation.
Definition endCompoundOperation := record EndCompoundOperation.
Definition update := record Update.

Definition setNotebookCell (nb : Notebook) (cellIndex : Z)
    (cellType : CellType) (src : jsstring) : bool * Notebook :=
  let numCells := numCells nb in
  if (cellIndex <? 0) || (cellIndex >=? numCells) then (false, nb)
  else
    let nb := beginCompoundOperation nb in
    let nb := cells_set cellIndex (createCell cellType src) nb in
    let nb := endCompoundOperation nb in
    let nb := update nb in
    (true, nb).

Section AddCell.
(** [NotebookActions.insertBelow(nb)] belongs to the host. *)
Variable insertBelow : Notebook -> Notebook.

Definition addNotebookCell (nb : Notebook)
    (cellType : CellType) (src : jsstring) : bool * Notebook :=
  let nb := insertBelow nb in
  let numCells := numCells nb in
  let nb := beginCompoundOperation nb in
  let nb := cells_set (numCells - 1) (createCell cellType src) nb in
  let nb := endCompoundOperation nb in
  let nb := update nb in
  (true, nb).
End AddCell.

(** Modelled from the spec: the host's insert-below action (JupyterLab's
    [NotebookActions.insertBelow], not part of this repository).  It does
    nothing without an active cell; otherwise it inserts a default (empty
    code) cell right after the active one and makes it the active cell. *)
Definition NotebookActions_insertBelow (nb : Notebook) : Notebook :=
  let nb := record InsertBelow nb in
  let a := activeCellIndex nb in
  if (a <? 0) || (a >=? numCells nb) then nb
  else
    let k := Z.to_nat (a + 1) in
    mkNotebook (take k (cells nb) ++ mkCell code [] :: drop k (cells nb))
               (a + 1) (calls nb).

(** A notebook of three cells whose first cell is active. *)
Definition three_cells : Notebook :=
  mkNotebook [mkCell code (lit "a"); mkCell markdown (lit "b"); mkCell raw (lit "c")] 0 [].

End NotebookModel.

(** ** [getPlugin]: the plugin resolver (index.ts, lines 36-58) *)
Module Plugin.

(** A JavaScript value, as far as the resolver is concerned. *)
Inductive value := VUndefined | VNull | VObject (id : nat).

(** An entry of the application's private plugin map. *)
Record plugin := mkPlugin {
  activated : bool;
  service : value
}.

(** Plugin records are objects: the map holds references into [objects],
    and a reference read before an activation sees the fields the
    activation wrote. *)
Definition ref := nat.

Record JupyterFrontEnd := mkApp {
  registered : gset string;                (* ids [app.hasPlugin] accepts *)
  _pluginMap : option (gmap string ref);   (* [appAny._pluginMap], maybe absent *)
  objects : ref -> plugin
}.

Definition hasPlugin (app : JupyterFrontEnd) (pluginId : string) : bool :=
  bool_decide (pluginId ∈ registered app).

(** What the promise returned by [app.activatePlugin(id)] does, and the
    application as it is once that promise has settled. *)
Inductive activation :=
| ActFulfilled (response : value) (app' : JupyterFrontEnd)
| ActRejected (app' : JupyterFrontEnd)
| ActPending.

(** State of the promise [getPlugin] returns.  [reject] is never called. *)
Inductive promise := Resolved (v : value) | Unsettled.

Inductive console_entry := ConsoleError (msg : string).

Record outcome := mkOutcome {
  result : promise;
  activation_requested : bool;    (* was [app.activatePlugin] called? *)
  console : list console_entry
}.

Section Resolver.
Variable activatePlugin : JupyterFrontEnd -> string -> activation.

(** [appAny._pluginMap ? appAny._pluginMap[pluginId] : undefined] *)
Definition lookup_plugin (app : JupyterFrontEnd) (pluginId : string) : option ref :=
  match _pluginMap app with
  | Some m => m !! pluginId
  | None => None
  end.

Definition getPlugin (app : JupyterFrontEnd) (pluginId : string) : outcome :=
  if hasPlugin app pluginId then
    match lookup_plugin app pluginId with
    | None =>
        (* [plugin.activated] on [undefined] throws; caught and logged *)
        mkOutcome Unsettled false [ConsoleError "Failed to get plugin"]
    | Some p =>
        if activated (objects app p) then
          mkOutcome (Resolved (service (objects app p))) false []
        else
          match activatePlugin app pluginId with
          | ActFulfilled response app' =>
              mkOutcome (Resolved (service (objects app' p))) true []
          | ActRejected _ | ActPending =>
              mkOutcome Unsettled true []
          end
    end
  else mkOutcome Unsettled false [].
End Resolver.

(** Sample applications: one plugin id, known to the registry; the private
    map is absent in the first, and holds an inactive record in the second. *)
Definition no_service : ref -> plugin := fun _ => mkPlugin false VNull.

Definition app_without_map : JupyterFrontEnd :=
  mkApp {["router"]} None no_service.

Definition app_inactive : JupyterFrontEnd :=
  mkApp {["router"]} (Some {["router" := 7%nat]}) no_service.

(** An activation that fulfils with [response] after storing the service
    [VObject 1] in the plugin record 7. *)
Definition activate_with (response : value) (app : JupyterFrontEnd)
    (pluginId : string) : activation :=
  ActFulfilled response
    (mkApp (registered app) (_pluginMap app)
       (fun r => if (r =? 7)%nat then mkPlugin true (VObject 1) else objects app r)).

End Plugin.

(** ** The DOM condition waiters: [waitForSelector], [waitForXPath]
    (index.ts, lines 80-119) *)
Module Waiter.
Import Js.

(** A DOM node, as far as the harness looks at it. *)
Record Node := mkNode {
  node_id : nat;
  textContent : jsstring
}.

Record IWaitForSelectorOptions := mkOptions {
  hidden : option bool
}.

(** [options && options.hidden] *)
Definition waitForHidden (options : option IWaitForSelectorOptions) : bool :=
  match options with
  | Some o => match hidden o with Some b => b | None => false end
  | None => false
  end.

(** [node || document] *)
Inductive root := Document | Subtree (element : nat).

Definition parent (node : option nat) : root :=
  match node with Some e => Subtree e | None => Document end.

(** Period of every [setInterval] of the harness. *)
Definition pollInterval : Z := 200.

(** A promise settled by polling: the time and the value ([None] is the
    [resolve()] without a value), and the number of DOM queries made. *)
Record settled := mkSettled {
  value : option Node;
  at_time : Z;
  dom_queries : nat
}.

(** The interval callback of both waiters, repeated every [pollInterval]
    from [now]; [found t] is what the query finds at time [t]. *)
Fixpoint interval_loop (found : Z -> option Node) (waitForHidden : bool)
    (now : Z) (queries : nat) (fuel : nat) : option settled :=
  match fuel with
  | O => None
  | S fuel' =>
      let now := now + pollInterval in
      let queries := S queries in
      match found now with
      | None =>
          if waitForHidden then Some (mkSettled None now queries)
          else interval_loop found waitForHidden now queries fuel'
      | Some n =>
          if waitForHidden
          then interval_loop found waitForHidden now queries fuel'
          else Some (mkSettled (Some n) now queries)
      end
  end.

Section Dom.
(** [parent.querySelector(selector)] and the first node of
    [document.evaluate(selector, parent, ...)], at a given time. *)
Variable querySelector : root -> jsstring -> Z -> option Node.
Variable evaluate : root -> jsstring -> Z -> option Node.

Definition waitForSelector (selector : jsstring) (node : option nat)
    (options : option IWaitForSelectorOptions) (now : Z) (fuel : nat)
    : option settled :=
  interval_loop (querySelector (parent node) selector)
                (waitForHidden options) now 0 fuel.

Definition waitForXPath (selector : jsstring) (node : option nat)
    (options : option IWaitForSelectorOptions) (now : Z) (fuel : nat)
    : option settled :=
  interval_loop (evaluate (parent node) selector)
                (waitForHidden options) now 0 fuel.
End Dom.

(** Time of the [k]-th tick of an interval created at [now]. *)
Definition tick_time (now : Z) (k : nat) : Z := now + pollInterval * Z.of_nat k.

(** A subtree in which a match is present for two ticks and then removed. *)
Definition match_removed (r : root) (selector : jsstring) (t : Z) : option Node :=
  if t <? 600 then Some (mkNode 1 []) else None.

(** A document in which the element 4 loses its match at 600 ms while
    another match stays elsewhere in the document. *)
Definition removed_in_subtree (r : root) (selector : jsstring) (t : Z)
    : option Node :=
  match r with
  | Subtree 4 => if t <? 600 then Some (mkNode 1 []) else None
  | _ => Some (mkNode 2 [])
  end.

End Waiter.


(** ** [waitForCellRun]: the cell execution synchroniser
    (index.ts, lines 27-29 and 212-295) *)
Module CellRun.
Import Js NotebookModel Waiter.

Definition dq : string := String "034"%char EmptyString.

Definition xpContainsClass (className : string) : string :=
  ("contains(concat(" ++ dq ++ " " ++ dq ++ ", normalize-space(@class), "
   ++ dq ++ " " ++ dq ++ "), " ++ dq ++ " " ++ className ++ " " ++ dq ++ ")")%string.

Definition emptyPrompt : string := "[ ]:".
Definition runningPrompt : string := "[*]:".

Definition prompt_xpath (prompt : string) : jsstring :=
  lit (".//div[" ++ xpContainsClass "jp-InputArea-prompt"
       ++ " and text()=" ++ dq ++ prompt ++ dq ++ "]")%string.

Definition output_selector : jsstring :=
  lit ".jp-Cell-outputArea .jp-OutputArea-output".

Definition loading_widget : jsstring := lit "Loading widget...".

(** A cell widget: its model and the live views the harness reads. *)
Record Cell := mkCellWidget {
  model_text : jsstring;          (* [cell.model.value.text] *)
  model_type : CellType;          (* [cell.model.type] *)
  node : nat;                     (* [cell.node] *)
  ready_after : option Z;         (* delay until [cell.ready] fulfils, if ever *)
  rendered : Z -> bool            (* [cell.rendered] at a given time *)
}.

(** State of the promise executor of the code branch: the three [let]
    variables, the promise under construction, and a record of what the
    timers did. *)
Record poll_state := mkState {
  numTries : nat;
  timer : option Z;               (* the interval, by its creation time *)
  timeoutTimer : option Z;        (* the one-shot timeout, by its due time *)
  promise : option settled;       (* the first [resolve] wins *)
  queries : nat;                  (* DOM queries made so far *)
  armed_at : list Z;              (* times [setTimeout] was called *)
  fired_at : list Z;              (* times the timeout callback ran *)
  resolve_calls : list (Z * option Node)
                                  (* every call of [resolve], latest first *)
}.

(** [resolve(output)]: settles the promise unless it is settled already. *)
Definition resolve (output : option Node) (now : Z) (st : poll_state)
    : option settled :=
  match promise st with
  | None => Some (mkSettled output now (queries st))
  | Some s => Some s
  end.

Section CodeCell.
(** [cell.node.querySelector(output_selector)] at a given time. *)
Variable output : Z -> option Node.
Variable timeout : Z.
(** Whether the timeout callback runs before the interval callback when
    both are due at the same millisecond. *)
Variable timeout_first : bool.
(** Time at which the executor runs. *)
Variable start : Z.

(** [setTimeout] treats a negative delay as zero.  The delay is otherwise
    taken as it is given, which is what the host does below 2^31: it
    converts the delay to a 32-bit integer. *)
Definition delay : Z := Z.max 0 timeout.

(** [clearInterval(timer); timer = null; clearTimeout(timeoutTimer);
    timeoutTimer = null; resolve(output)] *)
Definition clearAndResolve (out : option Node) (now : Z) (st : poll_state)
    : poll_state :=
  mkState (numTries st) None None (resolve out now st)
          (queries st) (armed_at st) (fired_at st)
          ((now, out) :: resolve_calls st).

(** [if (!timeoutTimer) timeoutTimer = setTimeout(..., timeout)] *)
Definition startTimeout (now : Z) (st : poll_state) : poll_state :=
  match timeoutTimer st with
  | None =>
      mkState (numTries st) (timer st) (Some (now + delay)) (promise st)
              (queries st) (now :: armed_at st) (fired_at st) (resolve_calls st)
  | Some _ => st
  end.

Definition incr_tries (st : poll_state) : poll_state :=
  mkState (S (numTries st)) (timer st) (timeoutTimer st) (promise st)
          (queries st) (armed_at st) (fired_at st) (resolve_calls st).

Definition count_query (st : poll_state) : poll_state :=
  mkState (numTries st) (timer st) (timeoutTimer st) (promise st)
          (S (queries st)) (armed_at st) (fired_at st) (resolve_calls st).

(** One poll: the query, the three-way decision, then [numTries++]. *)
Definition checkIfDone (now : Z) (st : poll_state) : poll_state :=
  let st := count_query st in
  let st :=
    match output now with
    | Some o =>
        if Js.eqb (textContent o) loading_widget
        then startTimeout now st
        else clearAndResolve (Some o) now st
    | None =>
        if (0 <? numTries st)%nat then clearAndResolve None now st else st
    end in
  incr_tries st.

(** The callback given to [setTimeout]. *)
Definition onTimeout (now : Z) (st : poll_state) : poll_state :=
  clearAndResolve None now
    (mkState (numTries st) (timer st) (timeoutTimer st) (promise st)
             (queries st) (armed_at st) (now :: fired_at st) (resolve_calls st)).

Definition setInterval (now : Z) (st : poll_state) : poll_state :=
  mkState (numTries st) (Some now) (timeoutTimer st) (promise st)
          (queries st) (armed_at st) (fired_at st) (resolve_calls st).

Definition initial : poll_state := mkState 0 None None None 0 [] [] [].

(** The body of the executor: the first, synchronous [checkIfDone()], then
    [timer = setInterval(...)]. *)
Definition executor : poll_state := setInterval start (checkIfDone start initial).

(** Time of the [k]-th interval tick. *)
Definition tick (k : nat) : Z := start + pollInterval * Z.of_nat k.

Definition timeout_runs_first (due next : Z) : bool :=
  (due <? next) || ((due =? next) && timeout_first).

(** The timer callback that runs next after the [k]-th poll, if a timer is
    left: the one due first. *)
Inductive timer_event := Tick | TimeoutFires (due : Z).

Definition next_event (k : nat) (st : poll_state) : option timer_event :=
  match timer st, timeoutTimer st with
  | None, None => None
  | None, Some due => Some (TimeoutFires due)
  | Some _, None => Some Tick
  | Some _, Some due =>
      if timeout_runs_first due (tick (S k))
      then Some (TimeoutFires due) else Some Tick
  end.

Definition run_event (k : nat) (st : poll_state) (e : timer_event)
    : nat * poll_state :=
  match e with
  | Tick => (S k, checkIfDone (tick (S k)) st)
  | TimeoutFires due => (k, onTimeout due st)
  end.

(** The event loop: run the timer callbacks until no timer is left. *)
Fixpoint event_loop (fuel : nat) (k : nat) (st : poll_state)
    : option poll_state :=
  match fuel with
  | O => None
  | S fuel' =>
      match next_event k st with
      | None => Some st
      | Some e =>
          let '(k', st') := run_event k st e in event_loop fuel' k' st'
      end
  end.

(** The states the executor goes through: [reachable k st] when [st] is the
    state after some timer callback, [k] interval ticks having run. *)
Inductive reachable : nat -> poll_state -> Prop :=
| reach_executor : reachable 0 executor
| reach_event (k : nat) (st : poll_state) (e : timer_event) :
    reachable k st -> next_event k st = Some e ->
    reachable (run_event k st e).1 (run_event k st e).2.

(** The query finds the loading-widget placeholder at time [t]. *)
Definition placeholder_at (t : Z) : Prop :=
  exists o, output t = Some o /\ textContent o = loading_widget.

(** The call was resolved by the first, synchronous check, which found a
    finished output. *)
Definition resolved_by_first_check (st : poll_state) : Prop :=
  exists o, output start = Some o /\ textContent o <> loading_widget
            /\ promise st = Some (mkSettled (Some o) start 1).

(** What holds of every state the executor goes through. *)
Definition Inv (k : nat) (st : poll_state) : Prop :=
  numTries st = S k
  /\ (timer st = None -> timeoutTimer st = None)
  /\ (timer st <> None -> fired_at st = [])
  /\ (forall due, timeoutTimer st = Some due ->
        exists a, armed_at st = [a] /\ due = a + delay)
  /\ (timer st <> None -> timeoutTimer st = None -> armed_at st = [])
  /\ (length (armed_at st) <= 1)%nat
  /\ (forall a, In a (armed_at st) ->
        placeholder_at a /\ exists j, (j <= k)%nat /\ a = tick j)
  /\ (forall f, In f (fired_at st) ->
        exists a, armed_at st = [a] /\ f = a + delay)
  /\ (timer st <> None ->
        promise st = None
        \/ (resolved_by_first_check st /\ forall a, In a (armed_at st) -> start < a))
  /\ (timer st = None -> promise st <> None).

(** A number of timer events that always suffices for the loop to end. *)
Definition enough_fuel : nat := Z.to_nat (delay / pollInterval) + 4.

(** The code branch, run until its timers are gone. *)
Definition code_cell_run (fuel : nat) : option poll_state :=
  event_loop fuel 0 executor.

End CodeCell.

(** [waitForMarkdonCellRendered]: once [cell.ready] has fulfilled, poll
    [cell.rendered] every [pollInterval]. *)
Fixpoint rendered_loop (rendered : Z -> bool) (now : Z) (fuel : nat) : option Z :=
  match fuel with
  | O => None
  | S fuel' =>
      let now := now + pollInterval in
      if rendered now then Some now else rendered_loop rendered now fuel'
  end.

Definition waitForMarkdonCellRendered (cell : Cell) (now : Z) (fuel : nat)
    : option Z :=
  match ready_after cell with
  | None => None
  | Some d => rendered_loop (rendered cell) (now + Z.max 0 d) fuel
  end.

Section Dom.
Variable querySelector : root -> jsstring -> Z -> option Node.
Variable evaluate : root -> jsstring -> Z -> option Node.
Variable timeout_first : bool.

Definition hidden_true : option IWaitForSelectorOptions :=
  Some (mkOptions (Some true)).

Definition add_queries (q : nat) (s : settled) : settled :=
  mkSettled (value s) (at_time s) (q + dom_queries s).

(** [waitForCellRun(cell, timeout = 2000)], called at time [now]. *)
Definition waitForCellRun (cell : Cell) (timeout : option Z) (now : Z)
    (fuel : nat) : option settled :=
  let timeout := match timeout with Some t => t | None => 2000 end in
  let code := model_text cell in
  if negb (truthy (trim code)) then Some (mkSettled None now 0)
  else
    match waitForXPath evaluate (prompt_xpath emptyPrompt)
            (Some (node cell)) hidden_true now fuel with
    | None => None
    | Some s1 =>
    match waitForXPath evaluate (prompt_xpath runningPrompt)
            (Some (node cell)) hidden_true (at_time s1) fuel with
    | None => None
    | Some s2 =>
        let q := (dom_queries s1 + dom_queries s2)%nat in
        let now := at_time s2 in
        match model_type cell with
        | markdown =>
            match waitForMarkdonCellRendered cell now fuel with
            | Some t => Some (mkSettled None t q)
            | None => None
            end
        | raw => Some (mkSettled None now q)
        | code =>
            match code_cell_run
                    (querySelector (Subtree (node cell)) output_selector)
                    timeout timeout_first now fuel with
            | Some st =>
                match promise st with
                | Some s => Some (add_queries q s)
                | None => None
                end
            | None => None
            end
        end
    end
    end.
End Dom.

(** Sample outputs: the placeholder for ever; a finished output at the
    first check and the placeholder afterwards; nothing at all. *)
Definition placeholder_node : Node := mkNode 1 loading_widget.
Definition finished_node : Node := mkNode 2 (lit "42").

Definition stalled_widget (t : Z) : option Node := Some placeholder_node.

Definition output_then_placeholder (t : Z) : option Node :=
  if t <? 200 then Some finished_node else Some placeholder_node.

Definition no_output (t : Z) : option Node := None.

(** A finished output at the first check, the placeholder at the first
    tick, another finished output from the second tick on. *)
Definition other_node : Node := mkNode 3 (lit "43").

Definition output_then_other (t : Z) : option Node :=
  if t <? 200 then Some finished_node
  else if t <? 400 then Some placeholder_node
  else Some other_node.

(** A finished output at the first check, and no output node afterwards. *)
Definition output_then_nothing (t : Z) : option Node :=
  if t <? 200 then Some finished_node else None.

(** A code cell whose empty prompt is gone from 300 ms on, whose running
    prompt shows from then until 700 ms, and whose output is the
    placeholder throughout. *)
Definition sample_cell : Cell :=
  mkCellWidget (lit "display(w)") code 3 None (fun _ => false).

Definition sample_evaluate (r : root) (selector : jsstring) (t : Z)
    : option Node :=
  if Js.eqb selector (prompt_xpath emptyPrompt)
  then (if t <? 300 then Some (mkNode 10 (lit emptyPrompt)) else None)
  else if Js.eqb selector (prompt_xpath runningPrompt)
  then (if (300 <=? t) && (t <? 700)
        then Some (mkNode 10 (lit runningPrompt)) else None)
  else None.

Definition sample_querySelector (r : root) (selector : jsstring) (t : Z)
    : option Node :=
  if Js.eqb selector output_selector then Some placeholder_node else None.

End CellRun.

(** ** [notebookWillScroll] and [runActiveNotebookCellByCell]
    (index.ts, lines 297-353) *)
Module Orchestrator.
Import Waiter.
Import PrimFloat SpecFloat FloatOps.

(** The part of a [DOMRect] the harness reads, as the host gives it: a
    JavaScript number is a double. *)
Record DOMRect := mkRect {
  top : float;
  height : float;
  bottom : float
}.

(** [a > b] on numbers: [false] as soon as one of them is NaN. *)
Definition gtb (a b : float) : bool := (b <? a)%float.

(** [notebookWillScroll(notebook, position, threshold = 25)], where [ar] is
    [notebook.node.getBoundingClientRect()]. *)
Definition notebookWillScroll (ar : DOMRect) (position : float)
    (threshold : option float) : bool :=
  let threshold := match threshold with Some t => t | None => 25%float end in
  let delta := (position - top ar - height ar / 2)%float in
  gtb (abs delta) ((height ar * threshold) / 100)%float.

(** The magnitude of a finite double of digits [m] and exponent [e]. *)
Definition mag (m : positive) (e : Z) : Q := (inject_Z (Zpos m) * 2 ^ e)%Q.

(** The rational a double stands for, when it is finite. *)
Definition SF2Q (x : spec_float) : option Q :=
  match x with
  | S754_zero _ => Some 0%Q
  | S754_finite s m e =>
      let v := mag m e in
      Some (if s then (- v)%Q else v)
  | S754_infinity _ | S754_nan => None
  end.

Definition exact_value (x : float) : option Q := SF2Q (Prim2SF x).

(** The double [x] is finite and stands for the rational [q]. *)
Definition is_exactly (x : float) (q : Q) : Prop :=
  exists v, exact_value x = Some v /\ (v == q)%Q.

(** [Number.isNaN] *)
Definition isNaN (x : float) : bool :=
  match Prim2SF x with S754_nan => true | _ => false end.

Definition Qgtb (a b : Q) : bool := negb (Qle_bool a b).

(** The prediction in the words of the specification, on exact numbers:
    the distance of [position] from the centre of the viewport,
    [top + height / 2], is strictly more than [threshold] percent of the
    height of the viewport. *)
Definition distance_exceeds (top height position threshold : Q) : bool :=
  Qgtb (Qabs (position - (top + height / 2))) (threshold / 100 * height)%Q.

(** Outcome of an awaited promise. *)
Inductive await (A : Type) :=
| Fulfilled (a : A)
| Rejected
| Pending.
Arguments Fulfilled {A} a.
Arguments Rejected {A}.
Arguments Pending {A}.

(** [INotebookRunCallback]: every member is optional; what a member does
    may depend on the cell during which it is called. *)
Record INotebookRunCallback := mkCallback {
  onBeforeScroll : option (nat -> await unit);
  onAfterScroll : option (nat -> await unit);
  onAfterCellRun : option (nat -> await unit)
}.

(** What the host shows of one cell while the orchestrator handles it. *)
Record cell_view := mkView {
  run_outcome : await unit;             (* [NotebookActions.run(...)] *)
  wait_outcome : await (option Node);   (* [this.waitForCellRun(cell)] *)
  outputArea_rect : DOMRect;
  inputArea_rect : DOMRect;
  notebook_rect : DOMRect;
  scrollTop_before : Z;                 (* before [scrollToPosition] *)
  scrollTop_after : Z                   (* after it, and [update()] *)
}.

Inductive event :=
| ConsoleError (msg : string)
| DeselectAll
| SetActiveCellIndex (i : nat)
| Select (i : nat)
| RunStart (i : nat)
| RunDone (i : nat)
| WaitStart (i : nat)
| WaitDone (i : nat)
| AfterCellRunStart (i : nat)
| AfterCellRunDone (i : nat)
| BeforeScrollStart (i : nat)
| BeforeScrollDone (i : nat)
| ScrollToPosition (position threshold : float)
| Update
| AfterScrollStart (i : nat)
| AfterScrollDone (i : nat).

(** How an [async] function ends. *)
Inductive completion (A : Type) :=
| Returns (a : A)
| Throws
| NeverReturns.
Arguments Returns {A} a.
Arguments Throws {A}.
Arguments NeverReturns {A}.

(** An [async] body: how it ends and the events it caused, in order. *)
Definition M (A : Type) : Type := completion A * list event.

#[export] Instance M_ret : MRet M := fun A a => (Returns a, []).

#[export] Instance M_bind : MBind M := fun A B f m =>
  match m with
  | (Returns a, tr) => let '(r, tr') := f a in (r, tr ++ tr')
  | (Throws, tr) => (Throws, tr)
  | (NeverReturns, tr) => (NeverReturns, tr)
  end.

Definition emit (e : event) : M unit := (Returns tt, [e]).

Definition await_ {A} (p : await A) : M A :=
  match p with
  | Fulfilled a => (Returns a, [])
  | Rejected => (Throws, [])
  | Pending => (NeverReturns, [])
  end.

Definition when (b : bool) (m : M unit) : M unit := if b then m else mret tt.

Definition scrollThreshold : float := 45%float.

Definition mispredicted : string := "Notebook scroll mispredicted!".

(** The first argument of the [console.error] made when
    [notebook.widgets] is missing. *)
Definition cell_problem : string := "NOTEBOOK CELL PROBLEM".

(** [callback && callback.member] *)
Definition member (callback : option INotebookRunCallback)
    (m : INotebookRunCallback -> option (nat -> await unit))
    : option (nat -> await unit) :=
  match callback with Some c => m c | None => None end.

(** The rectangle whose bottom is scrolled to. *)
Definition anchor (output : option Node) (cell : cell_view) : DOMRect :=
  match output with
  | Some _ => outputArea_rect cell
  | None => inputArea_rect cell
  end.

(** The body of the [for] loop, for the cell at index [i]. *)
Definition iteration (callback : option INotebookRunCallback) (i : nat)
    (cell : cell_view) : M unit :=
  emit (SetActiveCellIndex i) ;;
  emit (Select i) ;;
  emit (RunStart i) ;; await_ (run_outcome cell) ;; emit (RunDone i) ;;
  emit (WaitStart i) ;;
  output ← await_ (wait_outcome cell);
  emit (WaitDone i) ;;
  match member callback onAfterCellRun with
  | Some f => emit (AfterCellRunStart i) ;; await_ (f i) ;; emit (AfterCellRunDone i)
  | None => mret tt
  end ;;
  let rect := anchor output cell in
  let willScroll :=
    notebookWillScroll (notebook_rect cell) (bottom rect) (Some scrollThreshold) in
  match member callback onBeforeScroll with
  | Some f =>
      when willScroll
        (emit (BeforeScrollStart i) ;; await_ (f i) ;; emit (BeforeScrollDone i))
  | None => mret tt
  end ;;
  let prevScroll := scrollTop_before cell in
  emit (ScrollToPosition (bottom rect) scrollThreshold) ;;
  emit Update ;;
  match member callback onAfterScroll with
  | Some f =>
      when willScroll
        (let newScroll := scrollTop_after cell in
         when (negb (newScroll =? prevScroll)%Z) (emit (ConsoleError mispredicted)) ;;
         emit (AfterScrollStart i) ;; await_ (f i) ;; emit (AfterScrollDone i))
  | None => mret tt
  end.

(** [for (let i = ...; i < numCells; ++i)] with [remaining = numCells - i]. *)
Fixpoint for_loop (callback : option INotebookRunCallback)
    (widgets : list cell_view) (remaining : nat) (i : nat) : M unit :=
  match remaining with
  | O => mret tt
  | S remaining' =>
      match widgets !! i with
      | Some cell =>
          iteration callback i cell ;;
          for_loop callback widgets remaining' (S i)
      | None => (Throws, [])      (* [notebook.widgets[i]] is [undefined] *)
      end
  end.

(** [runActiveNotebookCellByCell(callback)], where [widgets] is
    [notebook.widgets]: [None] when the host has none ([undefined] or
    [null]), in which case the problem is logged and reading
    [notebook.widgets.length] throws. *)
Definition runActiveNotebookCellByCell
    (callback : option INotebookRunCallback)
    (widgets : option (list cell_view)) : M unit :=
  match widgets with
  | None => emit (ConsoleError cell_problem) ;; (Throws, [])
  | Some widgets =>
      let numCells := length widgets in
      if (numCells =? 0)%nat then mret tt
      else
        emit DeselectAll ;;
        for_loop callback widgets numCells 0%nat
  end.

(** The indices [onAfterCellRun] was called with, in order. *)
Definition afterCellRun_calls (tr : list event) : list nat :=
  omap (fun e => match e with AfterCellRunStart i => Some i | _ => None end) tr.

(** Every promise awaited while the cell at index [i] is handled fulfils. *)
Definition settles (cb : INotebookRunCallback) (i : nat) (cell : cell_view)
    : Prop :=
  run_outcome cell = Fulfilled tt
  /\ (exists output, wait_outcome cell = Fulfilled output)
  /\ (forall f, onAfterCellRun cb = Some f -> f i = Fulfilled tt)
  /\ (forall f, onBeforeScroll cb = Some f -> f i = Fulfilled tt)
  /\ (forall f, onAfterScroll cb = Some f -> f i = Fulfilled tt).

(** The events of one iteration all of whose promises fulfil, written out:
    [output] is what [waitForCellRun] resolved with. *)
Definition settled_trace (cb : INotebookRunCallback) (i : nat)
    (cell : cell_view) (output : option Node) : list event :=
  let rect := anchor output cell in
  let willScroll :=
    notebookWillScroll (notebook_rect cell) (bottom rect) (Some scrollThreshold) in
  [SetActiveCellIndex i; Select i; RunStart i; RunDone i; WaitStart i; WaitDone i]
  ++ match onAfterCellRun cb with
     | Some _ => [AfterCellRunStart i; AfterCellRunDone i]
     | None => []
     end
  ++ (if willScroll && bool_decide (is_Some (onBeforeScroll cb))
      then [BeforeScrollStart i; BeforeScrollDone i] else [])
  ++ [ScrollToPosition (bottom rect) scrollThreshold; Update]
  ++ (if willScroll && bool_decide (is_Some (onAfterScroll cb))
      then (if (scrollTop_after cell =? scrollTop_before cell)%Z
            then [] else [ConsoleError mispredicted])
           ++ [AfterScrollStart i; AfterScrollDone i]
      else []).

(** The viewport of the specification's example: top 100, height 400. *)
Definition viewport : DOMRect := mkRect 100 400 500.

(** A cell without output whose input area ends at y = 700, and the scroll
    position before and after the scroll. *)
Definition far_cell (before after : Z) : cell_view :=
  mkView (Fulfilled tt) (Fulfilled None) (mkRect 600 100 700) (mkRect 600 100 700)
         viewport before after.

(** A viewport of top 0 and height 1, and the double 0.5 - 0.45, which
    prints as 0.04999999999999999. *)
Definition thin_viewport : DOMRect := mkRect 0 1 1.

Definition below_centre : float := 0x1.9999999999998p-5%float.

Definition all_callbacks : INotebookRunCallback :=
  mkCallback (Some (fun _ => Fulfilled tt)) (Some (fun _ => Fulfilled tt))
             (Some (fun _ => Fulfilled tt)).

End Orchestrator.

(** ** More of the synchroniser: bounds of the code branch, and
    [waitForNotebookRun] (index.ts, lines 186-209) *)
Module NotebookRun.
Import Js NotebookModel Waiter CellRun.

Section Bounds.
Variable output : Z -> option Node.
Variable timeout : Z.
Variable start : Z.

(** Latest time at which the code branch can still be pending. *)
Definition deadline : Z := start + pollInterval + delay timeout.

(** What holds of the times in every state the executor goes through. *)
Definition Inv_times (k : nat) (st : poll_state) : Prop :=
  (forall s, promise st = Some s ->
     start <= at_time s <= deadline
     /\ forall o, value s = Some o ->
          output (at_time s) = Some o /\ textContent o <> loading_widget)
  /\ (forall due, timeoutTimer st = Some due -> start <= due <= deadline)
  /\ (timer st <> None -> timeoutTimer st = None -> k = 0%nat).
End Bounds.

(** [Promise.all(promises)], every promise having been created at [now]: it
    settles when the last of them does, and stays pending with any of
    them. *)
Fixpoint promise_all (now : Z) (results : list (option settled)) : option Z :=
  match results with
  | [] => Some now
  | r :: rest =>
      match r, promise_all now rest with
      | Some s, Some t => Some (Z.max (at_time s) t)
      | _, _ => None
      end
  end.

(** How a settled promise of [waitForNotebookRun] has settled, and when. *)
Inductive outcome := ResolvedAt (t : Z) | RejectedAt (t : Z).

(** The first argument of the [console.error] made when
    [notebook.widgets] is missing. *)
Definition cell_problem : string := "NOTEBOOK CELL PROBLEM".

Section Dom.
Variable querySelector : root -> jsstring -> Z -> option Node.
Variable evaluate : root -> jsstring -> Z -> option Node.
Variable timeout_first : bool.

(** [waitForNotebookRun()], called at time [now], where [widgets] is
    [notebook.widgets]: [None] when the host has none ([undefined] or
    [null]), in which case the problem is logged and reading
    [notebook.widgets.length] throws.  The result is what was logged and how
    the promise stands, [None] while it is pending. *)
Definition waitForNotebookRun (widgets : option (list Cell)) (now : Z)
    (fuel : nat) : list string * option outcome :=
  match widgets with
  | None => ([cell_problem], Some (RejectedAt now))
  | Some widgets =>
      let numCells := length widgets in
      if (numCells =? 0)%nat then ([], Some (ResolvedAt now))
      else
        ([], ResolvedAt <$>
               promise_all now
                 (map (fun cell =>
                         waitForCellRun querySelector evaluate timeout_first
                           cell None now fuel)
                      widgets))
  end.
End Dom.

(** A source made of whitespace only, and a raw cell with a source. *)
Definition blank_cell : Cell :=
  mkCellWidget (lit "  ") code 1 None (fun _ => false).

Definition raw_cell : Cell :=
  mkCellWidget (lit "text") raw 2 None (fun _ => false).

(** A markdown cell that is ready after 50 ms and rendered from 900 ms on. *)
Definition markdown_cell : Cell :=
  mkCellWidget (lit "# title") markdown 4 (Some 50) (fun t => 900 <=? t).

(** The DOM of a cell whose output is finished from the start. *)
Definition finished_querySelector (r : root) (selector : jsstring) (t : Z)
    : option Node :=
  if Js.eqb selector output_selector then Some finished_node else None.

(** A subtree in which a match appears at 500 ms. *)
Definition match_appears (r : root) (selector : jsstring) (t : Z) : option Node :=
  if t <? 500 then None else Some (mkNode 7 []).

End NotebookRun.

(** ** [waitForLaunch] (index.ts, lines 66-78) *)
Module Launch.
Import Plugin.

(** What a call of [waitForLaunch] has come to: whether its promise is
    resolved, whether a handler was connected to [router.routed], how often
    [docManager.closeAll] has been called, the ids [getPlugin] was called
    with, and the console. *)
Record launch := mkLaunch {
  resolved : bool;
  connected : bool;
  closeAll_calls : nat;
  requested : list string;
  log : list console_entry
}.

Section WaitForLaunch.
Variable activatePlugin : JupyterFrontEnd -> string -> activation.
(** The two ids come from [./tokens], which is not among the sources. *)
Variable PLUGIN_ID_ROUTER : string.
Variable PLUGIN_ID_DOC_MANAGER : string.
(** Whether the promise of the [n]-th call of [docManager.closeAll()]
    fulfils (calls are counted from 0). *)
Variable closeAll : nat -> bool.

(** The application as [getPlugin] leaves it: unchanged unless an
    activation was requested and has settled. *)
Definition app_after (app : JupyterFrontEnd) (pluginId : string)
    : JupyterFrontEnd :=
  if activation_requested (getPlugin activatePlugin app pluginId) then
    match activatePlugin app pluginId with
    | ActFulfilled _ app' => app'
    | ActRejected app' => app'
    | ActPending => app
    end
  else app.

(** What it takes for [getPlugin] to resolve: the registry knows the id,
    the private map holds a record for it, and the record is activated or
    its activation fulfils. *)
Definition obtainable (app : JupyterFrontEnd) (pluginId : string) : Prop :=
  hasPlugin app pluginId = true
  /\ exists p, lookup_plugin app pluginId = Some p
       /\ (activated (objects app p) = true
           \/ exists response app',
                activatePlugin app pluginId = ActFulfilled response app').

(** The handler connected to [router.routed], run on one navigation event:
    [st] is the number of calls of [closeAll] so far and whether [resolve]
    has been called.  On a [docManager] that is not an object the call
    throws inside the handler. *)
Definition on_routed (path : string) (docManager : value)
    (st : nat * bool) (args_path : string) : nat * bool :=
  if String.eqb args_path path then
    match docManager with
    | VObject _ => (S st.1, st.2 || closeAll st.1)
    | _ => st
    end
  else st.

(** [waitForLaunch(path = '/lab')], followed by the navigation events
    [routed] emitted after the handler was connected. *)
Definition waitForLaunch (path : option string) (app : JupyterFrontEnd)
    (routed : list string) : launch :=
  let path := match path with Some p => p | None => "/lab"%string end in
  let r1 := getPlugin activatePlugin app PLUGIN_ID_ROUTER in
  match result r1 with
  | Unsettled => mkLaunch false false 0 [PLUGIN_ID_ROUTER] (console r1)
  | Resolved router =>
      let app := app_after app PLUGIN_ID_ROUTER in
      let r2 := getPlugin activatePlugin app PLUGIN_ID_DOC_MANAGER in
      let ids := [PLUGIN_ID_ROUTER; PLUGIN_ID_DOC_MANAGER] in
      let out := console r1 ++ console r2 in
      match result r2 with
      | Unsettled => mkLaunch false false 0 ids out
      | Resolved docManager =>
          match router with
          | VObject _ =>
              let st := fold_left (on_routed path docManager) routed (0%nat, false) in
              mkLaunch st.2 true st.1 ids out
          | _ => mkLaunch false false 0 ids out   (* [router.routed] throws *)
          end
      end
  end.
End WaitForLaunch.

(** An application with an active router and an active document manager. *)
Definition both_active : ref -> plugin :=
  fun r => mkPlugin true (VObject r).

Definition app_ready : JupyterFrontEnd :=
  mkApp {["router"; "docmanager"]}
        (Some (<["router" := 1%nat]> {["docmanager" := 2%nat]})) both_active.

End Launch.

(** ** Observations on the events of a cell-by-cell run *)
Module RunTrace.
Import Waiter Orchestrator.
Import PrimFloat.

(** The positions scrolled to, with the thresholds, in order. *)
Definition scroll_positions (tr : list event) : list (float * float) :=
  omap (fun e => match e with
                 | ScrollToPosition p t => Some (p, t)
                 | _ => None
                 end) tr.

(** The prediction made for [cell] once [waitForCellRun] has given
    [output]. *)
Definition predicted (cell : cell_view) (output : option Node) : bool :=
  notebookWillScroll (notebook_rect cell) (bottom (anchor output cell))
    (Some scrollThreshold).

(** The events that belong to a predicted scroll: the two scroll callbacks
    and the diagnostic. *)
Definition scroll_callback (e : event) : bool :=
  match e with
  | BeforeScrollStart _ | AfterScrollStart _ | ConsoleError _ => true
  | _ => false
  end.

(** The member of the callback object that a scroll event depends on: the
    diagnostic is logged in the branch guarded by [onAfterScroll]. *)
Definition callback_of (e : event) (cb : INotebookRunCallback)
    : option (nat -> await unit) :=
  match e with
  | BeforeScrollStart _ => onBeforeScroll cb
  | _ => onAfterScroll cb
  end.

(** The events of the cell at index [j], if there is such a cell. *)
Definition events_of (callback : option INotebookRunCallback)
    (widgets : list cell_view) (j : nat) : list event :=
  match widgets !! j with
  | Some cell => (iteration callback j cell).2
  | None => []
  end.

(** A cell whose run never completes. *)
Definition stuck_cell : cell_view :=
  mkView Pending (Fulfilled None) (mkRect 600 100 700) (mkRect 600 100 700)
         viewport 0 0.

(** A cell in the middle of the viewport: no scroll is predicted. *)
Definition near_cell : cell_view :=
  mkView (Fulfilled tt) (Fulfilled None) (mkRect 250 50 300) (mkRect 250 50 300)
         viewport 0 0.

End RunTrace.

(* ===================================================================== *)
(** * Part II: properties                                                 *)
(* ===================================================================== *)

(** ** Replacing and adding notebook cells *)
Section NotebookFacts.
Import Js NotebookModel.

Lemma cells_set_in_range (i : Z) (c : ICellModel) (nb : Notebook) :
  0 <= i < numCells nb ->
  cells (cells_set i c nb) = <[Z.to_nat i := c]> (cells nb)
  /\ cells (cells_set i c nb) !! Z.to_nat i = Some c
  /\ length (cells (cells_set i c nb)) = length (cells nb)
  /\ calls (cells_set i c nb) = calls nb ++ [CellsSet i c].
Proof.
  unfold numCells, cells_set. intros Hi.
  destruct (Z.ltb_spec i 0) as [Hneg|_]; [lia|]. cbn.
  repeat split.
  - apply list_lookup_insert_eq. lia.
  - apply length_insert.
Qed.

(** C3: an index below zero or at or past the cell count makes
    [setNotebookCell] return [false] and leave the notebook exactly as it
    was: no compound operation is begun, no cell is replaced, no update is
    forced.  An index in range makes it return [true] after replacing that
    cell, and only that cell, inside one compound operation followed by an
    update. *)
Theorem setNotebookCell_spec (nb : Notebook) (cellIndex : Z)
    (cellType : CellType) (src : jsstring) :
  (cellIndex < 0 \/ cellIndex >= numCells nb ->
     setNotebookCell nb cellIndex cellType src = (false, nb))
  /\ (0 <= cellIndex < numCells nb ->
      let new := createCell cellType src in
      let nb' := (setNotebookCell nb cellIndex cellType src).2 in
      (setNotebookCell nb cellIndex cellType src).1 = true
      /\ cells nb' !! Z.to_nat cellIndex = Some new
      /\ (forall j, j <> Z.to_nat cellIndex -> cells nb' !! j = cells nb !! j)
      /\ length (cells nb') = length (cells nb)
      /\ activeCellIndex nb' = activeCellIndex nb
      /\ calls nb' = calls nb ++ [BeginCompoundOperation; CellsSet cellIndex new;
                                  EndCompoundOperation; Update]).
Proof.
  split.
  - intros Hout. unfold setNotebookCell.
    destruct (Z.ltb_spec cellIndex 0) as [|Hge]; [reflexivity|].
    destruct (Z.geb_spec cellIndex (numCells nb)) as [|Hlt]; [reflexivity|lia].
  - intros Hin new nb'. subst nb'. unfold setNotebookCell.
    destruct (Z.ltb_spec cellIndex 0) as [|_]; [lia|].
    destruct (Z.geb_spec cellIndex (numCells nb)) as [|_]; [lia|].
    cbn [orb fst snd].
    set (nb1 := beginCompoundOperation nb).
    assert (Hn : 0 <= cellIndex < numCells nb1) by (unfold numCells in *; cbn; lia).
    destruct (cells_set_in_range cellIndex new nb1 Hn) as (Hc & Hl & Hlen & Hcalls).
    fold new. cbn [update endCompoundOperation record cells calls activeCellIndex].
    repeat split.
    + exact Hl.
    + intros j Hj. rewrite Hc. cbn. by apply list_lookup_insert_ne.
    + rewrite Hlen. reflexivity.
    + unfold cells_set. destruct (cellIndex <? 0); reflexivity.
    + rewrite Hcalls. cbn. rewrite <- !app_assoc. reflexivity.
Qed.

(** C10: [addNotebookCell] returns [true] whatever the cell type and the
    source; the index it passes to the replacement is the cell count after
    the insertion minus one, so the cell replaced is the last one of the
    list the host's insertion left, wherever that insertion put its cell. *)
Theorem addNotebookCell_spec (insertBelow : Notebook -> Notebook)
    (nb : Notebook) (cellType : CellType) (src : jsstring) :
  let inserted := insertBelow nb in
  let new := createCell cellType src in
  let nb' := (addNotebookCell insertBelow nb cellType src).2 in
  (addNotebookCell insertBelow nb cellType src).1 = true
  /\ calls nb' = calls inserted ++
       [BeginCompoundOperation; CellsSet (numCells inserted - 1) new;
        EndCompoundOperation; Update]
  /\ (cells inserted <> [] ->
      let last_index := Nat.pred (length (cells inserted)) in
      cells nb' !! last_index = Some new
      /\ length (cells nb') = length (cells inserted)
      /\ forall j, j <> last_index -> cells nb' !! j = cells inserted !! j).
Proof.
  intros inserted new nb'. subst nb'. unfold addNotebookCell. fold inserted new.
  cbn [fst snd]. split; [reflexivity|].
  set (nb1 := beginCompoundOperation inserted).
  split.
  - cbn [update endCompoundOperation record calls].
    unfold cells_set. destruct (_ <? 0); cbn; rewrite <- !app_assoc; reflexivity.
  - intros Hne. set (last_index := Nat.pred (length (cells inserted))).
    assert (Hlen : (0 < length (cells inserted))%nat)
      by (destruct (cells inserted); [congruence | cbn; lia]).
    assert (Hn : 0 <= numCells inserted - 1 < numCells nb1)
      by (unfold numCells; cbn; lia).
    destruct (cells_set_in_range _ new nb1 Hn) as (Hc & Hl & Hlen' & _).
    assert (Hidx : Z.to_nat (numCells inserted - 1) = last_index)
      by (unfold numCells, last_index; lia).
    rewrite Hidx in Hc, Hl.
    cbn [update endCompoundOperation record cells].
    repeat split.
    + exact Hl.
    + exact Hlen'.
    + intros j Hj. rewrite Hc. cbn. by apply list_lookup_insert_ne.
Qed.

(** Both callers pass [cells_set] an index below the cell count. *)
Lemma set_index_in_range (nb : Notebook) (cellIndex : Z) :
  (cellIndex <? 0) || (cellIndex >=? numCells nb) = false ->
  cellIndex < numCells nb /\ numCells nb - 1 < numCells nb.
Proof.
  intros H. apply orb_false_iff in H as [_ H].
  destruct (Z.geb_spec cellIndex (numCells nb)); [discriminate | lia].
Qed.

Lemma setNotebookCell_spec_witness :
  setNotebookCell three_cells 3 code (lit "x") = (false, three_cells)
  /\ (setNotebookCell three_cells 1 code (lit "x")).1 = true.
Proof.
  split.
  - apply (setNotebookCell_spec three_cells 3 code (lit "x")).
    right. unfold numCells. simpl. lia.
  - apply (setNotebookCell_spec three_cells 1 code (lit "x")).
    unfold numCells. simpl. lia.
Defined.

Lemma addNotebookCell_spec_witness :
  cells (addNotebookCell NotebookActions_insertBelow three_cells markdown (lit "x")).2
    !! 3%nat = Some (createCell markdown (lit "x")).
Proof.
  apply (addNotebookCell_spec NotebookActions_insertBelow three_cells markdown (lit "x")).
  vm_compute. discriminate.
Defined.

(** With the host's insertion, and the first of three cells active, the
    inserted cell sits at index 1 and stays empty; the cell replaced is the
    former last cell. *)
Example addNotebookCell_first_active :
  cells (addNotebookCell NotebookActions_insertBelow three_cells markdown (lit "x")).2
  = [mkCell code (lit "a"); mkCell code []; mkCell markdown (lit "b");
     mkCell markdown (lit "x")].
Proof. reflexivity. Qed.

End NotebookFacts.

(** ** The plugin resolver *)
Section PluginFacts.
Import Plugin.

(** C2, as stated, fails: an id the registry knows does not make the
    promise resolve when the private plugin map gives no record for it,
    even though an activation would fulfil. *)
Lemma getPlugin_known_may_hang :
  ~ (forall (activatePlugin : JupyterFrontEnd -> string -> activation)
            (app : JupyterFrontEnd) (pluginId : string),
        hasPlugin app pluginId = true ->
        (exists response app', activatePlugin app pluginId = ActFulfilled response app') ->
        exists v, result (getPlugin activatePlugin app pluginId) = Resolved v).
Proof.
  intros H.
  destruct (H (activate_with VUndefined) app_without_map "router"%string)
    as [v Hv].
  - reflexivity.
  - eexists _, _. reflexivity.
  - vm_compute in Hv. discriminate.
Qed.

(** C2, amended: for an id the registry knows and for which the private
    plugin map yields a record, the promise resolves with the record's
    service, at once and without an activation when the record is already
    activated, and otherwise exactly when the requested activation fulfils,
    with the service read from the record after the activation and whatever
    the activation's response; when the map yields no record the failure is
    logged and the promise stays unsettled; for an id the registry does not
    know the promise stays unsettled, nothing is requested or logged. *)
Theorem getPlugin_spec
    (activatePlugin : JupyterFrontEnd -> string -> activation)
    (app : JupyterFrontEnd) (pluginId : string) :
  let out := getPlugin activatePlugin app pluginId in
  (hasPlugin app pluginId = false -> out = mkOutcome Unsettled false [])
  /\ (hasPlugin app pluginId = true ->
      lookup_plugin app pluginId = None ->
      out = mkOutcome Unsettled false [ConsoleError "Failed to get plugin"])
  /\ (hasPlugin app pluginId = true ->
      forall p, lookup_plugin app pluginId = Some p ->
      (activated (objects app p) = true ->
         out = mkOutcome (Resolved (service (objects app p))) false [])
      /\ (activated (objects app p) = false ->
          activation_requested out = true
          /\ console out = []
          /\ (forall response app',
                activatePlugin app pluginId = ActFulfilled response app' ->
                result out = Resolved (service (objects app' p)))
          /\ ((forall response app',
                activatePlugin app pluginId <> ActFulfilled response app') ->
              result out = Unsettled))).
Proof.
  intros out. subst out. unfold getPlugin.
  split; [|split].
  - intros ->. reflexivity.
  - intros -> ->. reflexivity.
  - intros -> p ->. split.
    + intros ->. reflexivity.
    + intros ->. destruct (activatePlugin app pluginId) as [r a| a |] eqn:E; cbn.
      * repeat split; try reflexivity.
        -- intros r' a' [= _ <-]. reflexivity.
        -- intros Hno. exfalso. by apply (Hno r a).
      * repeat split; try reflexivity. intros ? ? [=].
      * repeat split; try reflexivity. intros ? ? [=].
Qed.

Lemma getPlugin_spec_witness :
  getPlugin (activate_with VNull) app_without_map "router"
    = mkOutcome Unsettled false [ConsoleError "Failed to get plugin"]
  /\ result (getPlugin (activate_with VNull) app_inactive "router")
    = Resolved (VObject 1)
  /\ getPlugin (activate_with VNull) app_inactive "other"
    = mkOutcome Unsettled false [].
Proof.
  pose proof (getPlugin_spec (activate_with VNull) app_without_map "router") as (_ & H1 & _).
  pose proof (getPlugin_spec (activate_with VNull) app_inactive "router") as (_ & _ & H2).
  pose proof (getPlugin_spec (activate_with VNull) app_inactive "other") as (H3 & _).
  split; [|split].
  - apply H1; reflexivity.
  - destruct (H2 eq_refl 7%nat eq_refl) as (_ & H).
    destruct (H eq_refl) as (_ & _ & Hres & _).
    exact (Hres VNull _ eq_refl).
  - apply H3. reflexivity.
Defined.

(** The resolved service does not depend on the activation's response. *)
Lemma getPlugin_response_irrelevant (r1 r2 : value) (app : JupyterFrontEnd)
    (pluginId : string) :
  getPlugin (activate_with r1) app pluginId = getPlugin (activate_with r2) app pluginId.
Proof.
  unfold getPlugin. destruct (hasPlugin app pluginId); [|reflexivity].
  destruct (lookup_plugin app pluginId); [|reflexivity].
  destruct (activated _); reflexivity.
Qed.

End PluginFacts.

(** ** The DOM condition waiters *)
Section WaiterFacts.
Import Js Waiter.

Lemma tick_time_succ (now : Z) (k : nat) :
  tick_time (now + pollInterval) k = tick_time now (S k).
Proof. unfold tick_time. lia. Qed.

(** Waiting for absence: the loop settles at the first tick without a
    match, provided the fuel reaches it. *)
Lemma interval_loop_hidden_complete (found : Z -> option Node) (n : nat) :
  forall (now : Z) (q fuel : nat),
  (1 <= n <= fuel)%nat ->
  (forall j, (1 <= j < n)%nat -> found (tick_time now j) <> None) ->
  found (tick_time now n) = None ->
  interval_loop found true now q fuel
    = Some (mkSettled None (tick_time now n) (q + n)).
Proof.
  induction n as [|n IH]; intros now q fuel Hn Hbefore Hat; [lia|].
  destruct fuel as [|fuel]; [lia|]. cbn [interval_loop].
  destruct (decide (n = 0%nat)) as [->|Hpos].
  - replace (now + pollInterval) with (tick_time now 1) by (unfold tick_time; lia).
    rewrite Hat. do 2 f_equal. lia.
  - destruct (found (now + pollInterval)) eqn:E.
    + rewrite (IH (now + pollInterval) (S q) fuel).
      * rewrite tick_time_succ. do 2 f_equal. lia.
      * lia.
      * intros j Hj. rewrite tick_time_succ. apply Hbefore. lia.
      * rewrite tick_time_succ. exact Hat.
    + exfalso. apply (Hbefore 1%nat); [lia|].
      replace (tick_time now 1) with (now + pollInterval)
        by (unfold tick_time; lia).
      exact E.
Qed.

(** Waiting for absence: a settled loop settled without a value, at a tick
    without a match, every earlier tick having had one. *)
Lemma interval_loop_hidden_sound (found : Z -> option Node) (fuel : nat) :
  forall (now : Z) (q : nat) (s : settled),
  interval_loop found true now q fuel = Some s ->
  value s = None
  /\ found (at_time s) = None
  /\ exists n, (1 <= n <= fuel)%nat
       /\ at_time s = tick_time now n
       /\ forall j, (1 <= j < n)%nat -> found (tick_time now j) <> None.
Proof.
  induction fuel as [|fuel IH]; intros now q s H; [discriminate|].
  cbn [interval_loop] in H.
  destruct (found (now + pollInterval)) as [nd|] eqn:E.
  - destruct (IH _ _ _ H) as (Hv & Hf & n & Hn & Hat & Hbefore).
    repeat split; try assumption.
    exists (S n). repeat split; try lia.
    + rewrite Hat. apply tick_time_succ.
    + intros j Hj. destruct (decide (j = 1%nat)) as [->|Hj1].
      * unfold tick_time. replace (now + pollInterval * Z.of_nat 1)
          with (now + pollInterval) by lia. congruence.
      * destruct j as [|j]; [lia|]. rewrite <- tick_time_succ.
        apply Hbefore. lia.
  - injection H as <-. cbn. repeat split; try assumption.
    exists 1%nat. unfold tick_time. repeat split; lia.
Qed.

(** C9: with [{hidden: true}], [waitForSelector] on the element [node]
    does not resolve at a tick at which the selector still matches a node
    of the subtree of [node] (what the rest of the document holds does not
    count): whenever it resolves, it does so without a value, at a tick at
    which the selector matches nothing in that subtree, every earlier tick
    having had a match there; and it does resolve at the first tick at which
    the selector matches nothing in that subtree. *)
Theorem waitForSelector_hidden_spec
    (querySelector : root -> jsstring -> Z -> option Node)
    (selector : jsstring) (node : nat) (now : Z) :
  let found := querySelector (Subtree node) selector in
  let wait := waitForSelector querySelector selector (Some node)
                (Some (mkOptions (Some true))) now in
  (forall fuel s, wait fuel = Some s ->
     value s = None
     /\ found (at_time s) = None
     /\ exists n, (1 <= n <= fuel)%nat
          /\ at_time s = tick_time now n
          /\ forall j, (1 <= j < n)%nat -> found (tick_time now j) <> None)
  /\ (forall n fuel, (1 <= n <= fuel)%nat ->
        (forall j, (1 <= j < n)%nat -> found (tick_time now j) <> None) ->
        found (tick_time now n) = None ->
        wait fuel = Some (mkSettled None (tick_time now n) n)).
Proof.
  intros found wait. split.
  - intros fuel s H. exact (interval_loop_hidden_sound found fuel now 0 s H).
  - intros n fuel Hn Hbefore Hat.
    exact (interval_loop_hidden_complete found n now 0 fuel Hn Hbefore Hat).
Qed.

Lemma waitForSelector_hidden_spec_witness :
  waitForSelector removed_in_subtree (lit ".busy") (Some 4%nat)
    (Some (mkOptions (Some true))) 0 5
  = Some (mkSettled None 600 3).
Proof.
  pose proof (waitForSelector_hidden_spec removed_in_subtree (lit ".busy")
                4%nat 0) as [_ H].
  apply (H 3%nat 5%nat).
  - lia.
  - intros j Hj. assert (j = 1 \/ j = 2)%nat as [-> | ->] by lia; discriminate.
  - reflexivity.
Defined.

End WaiterFacts.

(** ** The cell execution synchroniser *)
Section CellRunFacts.
Import Js NotebookModel Waiter CellRun.

Lemma trimStart_blank (s : jsstring) :
  forallb isWhiteSpace s = true -> trimStart s = [].
Proof.
  induction s as [|c s IH]; [reflexivity|]. cbn.
  intros H. apply andb_true_iff in H as [-> Hs]. auto.
Qed.

Lemma trim_blank (s : jsstring) :
  forallb isWhiteSpace s = true -> trim s = [].
Proof. intros H. unfold trim. rewrite (trimStart_blank s H). reflexivity. Qed.

(** C6: for a cell whose source text is empty or made of whitespace only,
    [waitForCellRun] returns nothing at the very time it is called, having
    made no DOM query and waited for no prompt marker: the result is there
    for any fuel, zero included, and whatever the DOM holds. *)
Theorem waitForCellRun_blank_source
    (querySelector evaluate : root -> jsstring -> Z -> option Node)
    (timeout_first : bool) (cell : Cell) (timeout : option Z) (now : Z)
    (fuel : nat) :
  forallb isWhiteSpace (model_text cell) = true ->
  waitForCellRun querySelector evaluate timeout_first cell timeout now fuel
    = Some (mkSettled None now 0).
Proof.
  intros H. unfold waitForCellRun. rewrite (trim_blank _ H). reflexivity.
Qed.

Section CodeCellFacts.
Variable output : Z -> option Node.
Variable timeout : Z.
Variable timeout_first : bool.
Variable start : Z.

Local Abbreviation checkIfDone := (checkIfDone output timeout).
Local Abbreviation executor := (executor output timeout start).
Local Abbreviation tick := (tick start).
Local Abbreviation next_event := (next_event timeout_first start).
Local Abbreviation run_event := (run_event output timeout start).
Local Abbreviation reachable := (reachable output timeout timeout_first start).
Local Abbreviation Inv := (Inv output timeout start).
Local Abbreviation placeholder_at := (placeholder_at output).
Local Abbreviation delay := (delay timeout).

(** The four cases of a poll. *)
Lemma checkIfDone_placeholder (now : Z) (st : poll_state) (o : Node) :
  output now = Some o -> textContent o = loading_widget ->
  checkIfDone now st = incr_tries (startTimeout timeout now (count_query st)).
Proof.
  intros Ho Ht. unfold CellRun.checkIfDone. rewrite Ho, Ht.
  unfold Js.eqb. rewrite bool_decide_eq_true_2; reflexivity.
Qed.

Lemma checkIfDone_finished (now : Z) (st : poll_state) (o : Node) :
  output now = Some o -> textContent o <> loading_widget ->
  checkIfDone now st = incr_tries (clearAndResolve (Some o) now (count_query st)).
Proof.
  intros Ho Ht. unfold CellRun.checkIfDone. rewrite Ho.
  unfold Js.eqb. rewrite bool_decide_eq_false_2; [reflexivity | exact Ht].
Qed.

Lemma checkIfDone_none_first (now : Z) (st : poll_state) :
  output now = None -> numTries st = 0%nat ->
  checkIfDone now st = incr_tries (count_query st).
Proof.
  intros Ho Hn. unfold CellRun.checkIfDone. rewrite Ho.
  change (numTries (count_query st)) with (numTries st).
  rewrite Hn. reflexivity.
Qed.

Lemma checkIfDone_none_later (now : Z) (st : poll_state) :
  output now = None -> (0 < numTries st)%nat ->
  checkIfDone now st = incr_tries (clearAndResolve None now (count_query st)).
Proof.
  intros Ho Hn. unfold CellRun.checkIfDone. rewrite Ho.
  change (numTries (count_query st)) with (numTries st).
  destruct (Nat.ltb_spec 0 (numTries st)); [reflexivity | lia].
Qed.

Lemma output_cases (t : Z) :
  output t = None
  \/ (exists o, output t = Some o /\ textContent o = loading_widget)
  \/ (exists o, output t = Some o /\ textContent o <> loading_widget).
Proof.
  destruct (output t) as [o|]; [|by left]. right.
  destruct (decide (textContent o = loading_widget)); [left|right]; eauto.
Qed.

Lemma tick_0 : tick 0 = start.
Proof. unfold CellRun.tick. lia. Qed.

Lemma tick_succ (k : nat) : tick (S k) = tick k + pollInterval.
Proof. unfold CellRun.tick. lia. Qed.

Lemma tick_mono (j k : nat) : (j <= k)%nat -> tick j <= tick k.
Proof. unfold CellRun.tick, pollInterval. lia. Qed.

Ltac split_inv := repeat match goal with |- _ /\ _ => split end.

Ltac inv_auto :=
  try solve [ intros; simplify_eq/=; first [done | lia | eauto | by left ] ].

Lemma Inv_executor : Inv 0 executor.
Proof.
  unfold CellRun.Inv, CellRun.executor.
  destruct (output_cases start) as [Ho | [(o & Ho & Ht) | (o & Ho & Ht)]].
  - rewrite (checkIfDone_none_first start initial Ho eq_refl). cbn.
    split_inv; inv_auto.
  - rewrite (checkIfDone_placeholder _ _ _ Ho Ht). cbn.
    split_inv; inv_auto.
    intros a [<-|[]]. split; [by exists o|]. exists 0%nat. by rewrite tick_0.
  - rewrite (checkIfDone_finished _ _ _ Ho Ht). cbn.
    split_inv; inv_auto.
    intros _. right. split; [|intros a []]. by exists o.
Qed.

Lemma resolve_is_Some (out : option Node) (now : Z) (st : poll_state) :
  resolve out now st <> None.
Proof. unfold resolve. destruct (promise st); done. Qed.

Lemma Inv_step (k : nat) (st : poll_state) (e : timer_event) :
  Inv k st -> next_event k st = Some e ->
  Inv (run_event k st e).1 (run_event k st e).2.
Proof.
  destruct st as [n tm tmo pr q ar fr rc].
  unfold CellRun.Inv, CellRun.next_event. cbn.
  intros (Hn & Hlive & Hfr & Hdue & Har0 & Hlen & Har & Hfired & Hpr & Hdone) Hnext.
  assert (Hfire : forall due, tmo = Some due -> tm <> None ->
    CellRun.Inv output timeout start k
      (onTimeout due (mkState n tm tmo pr q ar fr rc))).
  { intros due -> Htm. unfold CellRun.Inv. cbn.
    destruct (Hdue due eq_refl) as (a & -> & ->).
    rewrite (Hfr Htm).
    split_inv; inv_auto.
    - intros f [<-|[]]. eauto.
    - intros _. apply resolve_is_Some. }
  assert (Htick : tm <> None ->
    CellRun.Inv output timeout start (S k)
      (checkIfDone (tick (S k)) (mkState n tm tmo pr q ar fr rc))).
  { intros Htm. unfold CellRun.Inv.
    specialize (Hfr Htm). specialize (Hpr Htm). subst fr.
    assert (Har' : forall a, In a ar ->
      placeholder_at a /\ exists j, (j <= S k)%nat /\ a = tick j).
    { intros a Ha. apply Har in Ha as (? & j & ? & ->).
      split; [done|]. exists j. split; [lia|done]. }
    destruct (output_cases (tick (S k))) as [Ho | [(o & Ho & Ht) | (o & Ho & Ht)]].
    - rewrite (checkIfDone_none_later _ _ Ho) by (cbn; lia). cbn.
      split_inv; inv_auto. intros _. apply resolve_is_Some.
    - rewrite (checkIfDone_placeholder _ _ _ Ho Ht).
      destruct tmo as [due|]; cbn.
      + destruct (Hdue due eq_refl) as (a & -> & ->).
        split_inv; inv_auto.
      + rewrite (Har0 Htm eq_refl) in *.
        split_inv; inv_auto.
        * intros a [<-|[]]. split; [by exists o|]. by exists (S k).
        * intros _. destruct Hpr as [->|[Hr _]]; [by left|right].
          split; [exact Hr|]. intros a [<-|[]].
          unfold CellRun.tick, pollInterval. lia.
    - rewrite (checkIfDone_finished _ _ _ Ho Ht). cbn.
      split_inv; inv_auto. intros _. apply resolve_is_Some. }
  destruct tm as [c|], tmo as [due|].
  - destruct (timeout_runs_first _ _ _); injection Hnext as <-; cbn.
    + by apply Hfire.
    + by apply Htick.
  - injection Hnext as <-. by apply Htick.
  - specialize (Hlive eq_refl). discriminate.
  - discriminate.
Qed.

Lemma reachable_Inv (k : nat) (st : poll_state) : reachable k st -> Inv k st.
Proof.
  induction 1 as [|k st e _ IH Hnext]; [apply Inv_executor|].
  by apply Inv_step.
Qed.

(** *** Termination of the event loop *)

Lemma event_loop_more_fuel (fuel : nat) :
  forall (k : nat) (st st' : poll_state) (n : nat),
  event_loop output timeout timeout_first start fuel k st = Some st' ->
  event_loop output timeout timeout_first start (fuel + n) k st = Some st'.
Proof.
  induction fuel as [|fuel IH]; intros k st st' n H; [discriminate|].
  cbn in *. destruct (next_event k st) as [e|]; [|exact H].
  destruct (run_event k st e) as [k' st1]. by apply IH.
Qed.

Lemma event_loop_quiescent (fuel k : nat) (st : poll_state) :
  timer st = None -> timeoutTimer st = None ->
  event_loop output timeout timeout_first start (S fuel) k st = Some st.
Proof. intros Ht Hto. cbn. unfold CellRun.next_event. by rewrite Ht, Hto. Qed.

(** A poll either clears both timers or keeps the interval; it never
    replaces an armed timeout and arms one only at the polling time. *)
Lemma checkIfDone_timers (now : Z) (st : poll_state) :
  let st' := checkIfDone now st in
  (timer st' = None /\ timeoutTimer st' = None /\ promise st' <> None)
  \/ (timer st' = timer st
      /\ promise st' = promise st
      /\ match timeoutTimer st with
         | Some due => timeoutTimer st' = Some due
         | None => timeoutTimer st' = None \/ timeoutTimer st' = Some (now + delay)
         end).
Proof.
  destruct st as [n tm tmo pr q ar fr rc].
  destruct (output_cases now) as [Ho | [(o & Ho & Ht) | (o & Ho & Ht)]].
  - destruct n as [|n].
    + rewrite (checkIfDone_none_first now (mkState 0 tm tmo pr q ar fr rc) Ho eq_refl).
      cbn. right.
      destruct tmo; auto.
    + rewrite (checkIfDone_none_later _ _ Ho) by (cbn; lia). cbn. left.
      split_inv; inv_auto. apply resolve_is_Some.
  - rewrite (checkIfDone_placeholder _ _ _ Ho Ht). right.
    destruct tmo; cbn; auto.
  - rewrite (checkIfDone_finished _ _ _ Ho Ht). cbn. left.
    split_inv; inv_auto. apply resolve_is_Some.
Qed.

Lemma fires_before (due : Z) (k : nat) :
  due < tick (S k) -> timeout_runs_first timeout_first due (tick (S k)) = true.
Proof.
  intros H. unfold timeout_runs_first.
  destruct (Z.ltb_spec due (tick (S k))); [reflexivity | lia].
Qed.

Lemma polls_before (due : Z) (k : nat) :
  timeout_runs_first timeout_first due (tick (S k)) = false -> tick (S k) <= due.
Proof.
  unfold timeout_runs_first. intros H. apply orb_false_iff in H as [H _].
  destruct (Z.ltb_spec due (tick (S k))); [discriminate | lia].
Qed.

Lemma onTimeout_quiescent (fuel k : nat) (due : Z) (st : poll_state) :
  event_loop output timeout timeout_first start (S fuel) k (onTimeout due st)
  = Some (onTimeout due st).
Proof. by apply event_loop_quiescent. Qed.

(** With a timeout armed, at most [n] more polls fit before it is due. *)
Lemma loop_armed_terminates (n : nat) :
  forall (k : nat) (st : poll_state) (due : Z),
  timer st <> None -> timeoutTimer st = Some due ->
  due < tick k + pollInterval * Z.of_nat n ->
  exists st', event_loop output timeout timeout_first start (n + 2) k st = Some st'.
Proof.
  induction n as [|n IH]; intros k st due Htm Hto Hdue.
  - cbn. unfold CellRun.next_event. destruct (timer st) as [c|]; [|done].
    rewrite Hto, fires_before by (rewrite tick_succ; unfold pollInterval in *; lia).
    cbn. eauto.
  - change (S n + 2)%nat with (S (n + 2)). cbn [event_loop].
    unfold CellRun.next_event. destruct (timer st) as [c|] eqn:Etm; [|done].
    rewrite Hto. destruct (timeout_runs_first _ _ _).
    + cbn [run_event]. replace (n + 2)%nat with (S (n + 1)) by lia.
      rewrite onTimeout_quiescent. eauto.
    + cbn [run_event].
      destruct (checkIfDone_timers (tick (S k)) st) as [(H1 & H2 & _) | (H1 & _ & H2)].
      * replace (n + 2)%nat with (S (n + 1)) by lia.
        rewrite event_loop_quiescent by done. eauto.
      * rewrite Hto in H2. apply (IH (S k) _ due).
        -- rewrite H1, Etm. done.
        -- exact H2.
        -- rewrite tick_succ. lia.
Qed.

Local Abbreviation enough_fuel := (enough_fuel timeout).

Lemma delay_bound : delay < pollInterval * Z.of_nat (Z.to_nat (delay / pollInterval) + 1).
Proof.
  assert (0 <= delay) by (unfold CellRun.delay; lia).
  unfold pollInterval in *.
  assert (0 <= delay / 200) by (apply Z.div_pos; lia).
  pose proof (Z.mul_succ_div_gt delay 200). lia.
Qed.

Lemma loop_terminates (k : nat) (st : poll_state) :
  Inv k st ->
  exists st', event_loop output timeout timeout_first start enough_fuel k st = Some st'.
Proof.
  intros HI. pose proof HI as (Hn & Hlive & _ & Hdue & _ & _ & Har & _).
  set (N := (Z.to_nat (delay / pollInterval) + 1)%nat).
  assert (HN : delay < pollInterval * Z.of_nat N) by apply delay_bound.
  replace enough_fuel with (N + 3)%nat by (unfold CellRun.enough_fuel; lia).
  destruct (timer st) as [c|] eqn:Etm.
  - destruct (timeoutTimer st) as [due|] eqn:Eto.
    + destruct (loop_armed_terminates N k st due) as [st' H]; [by rewrite Etm|done| |].
      * destruct (Hdue due eq_refl) as (a & Ha & ->).
        destruct (Har a) as (_ & j & Hj & ->); [rewrite Ha; by left|].
        pose proof (tick_mono j k Hj). lia.
      * exists st'. replace (N + 3)%nat with (N + 2 + 1)%nat by lia.
        by apply event_loop_more_fuel.
    + replace (N + 3)%nat with (S (N + 2)) by lia. cbn [event_loop].
      unfold CellRun.next_event. rewrite Etm, Eto. cbn [run_event].
      destruct (checkIfDone_timers (tick (S k)) st) as [(H1 & H2 & _) | (H1 & _ & H2)].
      * replace (N + 2)%nat with (S (N + 1)) by lia.
        rewrite event_loop_quiescent by done. eauto.
      * rewrite Eto in H2. destruct H2 as [H2|H2].
        -- exfalso. revert H1 H2.
           destruct (output_cases (tick (S k))) as [Ho | [(o & Ho & Ht) | (o & Ho & Ht)]].
           ++ rewrite (checkIfDone_none_later _ _ Ho) by lia. cbn. by rewrite Etm.
           ++ rewrite (checkIfDone_placeholder _ _ _ Ho Ht). cbn.
              unfold startTimeout. cbn. by rewrite Eto.
           ++ rewrite (checkIfDone_finished _ _ _ Ho Ht). cbn. by rewrite Etm.
        -- apply (loop_armed_terminates N (S k) _ (tick (S k) + delay));
             [by rewrite H1, Etm|exact H2|lia].
  - exists st. replace (N + 3)%nat with (S (N + 2)) by lia.
    apply event_loop_quiescent; auto.
Qed.

(** The state the loop ends in is reachable and has no timer left. *)
Lemma event_loop_reachable (fuel : nat) :
  forall (k : nat) (st st' : poll_state),
  reachable k st ->
  event_loop output timeout timeout_first start fuel k st = Some st' ->
  exists k', reachable k' st' /\ next_event k' st' = None.
Proof.
  induction fuel as [|fuel IH]; intros k st st' Hr H; [discriminate|].
  cbn in H. destruct (next_event k st) as [e|] eqn:E.
  - pose proof (reach_event _ _ _ _ k st e Hr E) as Hr'.
    destruct (run_event k st e) as [k1 st1]. by apply (IH k1 st1).
  - injection H as <-. eauto.
Qed.

Lemma next_event_None (k : nat) (st : poll_state) :
  next_event k st = None -> timer st = None /\ timeoutTimer st = None.
Proof.
  unfold CellRun.next_event.
  destruct (timer st), (timeoutTimer st); try done.
  destruct (timeout_runs_first _ _ _); done.
Qed.

(** The code branch always settles: with [enough_fuel] or more the loop
    ends, in one and the same state, and the promise is resolved. *)
Lemma code_cell_run_total :
  exists st',
    (forall fuel, (enough_fuel <= fuel)%nat ->
       code_cell_run output timeout timeout_first start fuel = Some st')
    /\ timer st' = None /\ timeoutTimer st' = None
    /\ promise st' <> None
    /\ exists k, reachable k st'.
Proof.
  destruct (loop_terminates 0 executor Inv_executor) as [st' H].
  exists st'.
  destruct (event_loop_reachable _ _ _ _ (reach_executor _ _ _ _) H) as (k & Hr & Hq).
  destruct (next_event_None _ _ Hq) as [H1 H2].
  pose proof (reachable_Inv _ _ Hr) as (_ & _ & _ & _ & _ & _ & _ & _ & _ & Hdone).
  split_inv; eauto.
  intros fuel Hfuel. unfold code_cell_run.
  replace fuel with (enough_fuel + (fuel - enough_fuel))%nat by lia.
  by apply event_loop_more_fuel.
Qed.

(** *** A widget that stays at the placeholder *)

Lemma event_loop_fire (fuel k : nat) (st : poll_state) (due : Z) :
  timer st <> None -> timeoutTimer st = Some due ->
  timeout_runs_first timeout_first due (tick (S k)) = true ->
  event_loop output timeout timeout_first start (S (S fuel)) k st
  = Some (onTimeout due st).
Proof.
  intros Htm Hto Hfirst. cbn [event_loop]. unfold CellRun.next_event.
  destruct (timer st) as [c|]; [|done]. rewrite Hto, Hfirst.
  exact (onTimeout_quiescent fuel k due st).
Qed.

Lemma event_loop_tick (fuel k : nat) (st : poll_state) :
  timer st <> None ->
  match timeoutTimer st with
  | Some due => timeout_runs_first timeout_first due (tick (S k)) = false
  | None => True
  end ->
  event_loop output timeout timeout_first start (S fuel) k st
  = event_loop output timeout timeout_first start fuel (S k)
      (checkIfDone (tick (S k)) st).
Proof.
  intros Htm Hto. cbn [event_loop]. unfold CellRun.next_event.
  destruct (timer st) as [c|]; [|done].
  destruct (timeoutTimer st) as [due|]; [rewrite Hto|]; reflexivity.
Qed.

Lemma onTimeout_pending (due : Z) (st : poll_state) :
  promise st = None ->
  promise (onTimeout due st) = Some (mkSettled None due (queries st)).
Proof. intros H. cbn. unfold resolve. cbn. by rewrite H. Qed.

Lemma loop_stalled (n : nat) :
  forall (k : nat) (st : poll_state) (due : Z),
  timer st <> None -> timeoutTimer st = Some due -> promise st = None ->
  (forall j, (k < j)%nat -> tick j <= due -> placeholder_at (tick j)) ->
  due < tick k + pollInterval * Z.of_nat n ->
  exists st' q,
    event_loop output timeout timeout_first start (n + 2) k st = Some st'
    /\ promise st' = Some (mkSettled None due q)
    /\ armed_at st' = armed_at st
    /\ fired_at st' = due :: fired_at st.
Proof.
  induction n as [|n IH]; intros k st due Htm Hto Hpr Hph Hdue.
  - change (0 + 2)%nat with 2%nat. rewrite (event_loop_fire 0 k st due); try done.
    + exists (onTimeout due st), (queries st).
      split_inv; try done. by apply onTimeout_pending.
    + apply fires_before. rewrite tick_succ. unfold pollInterval in *. lia.
  - destruct (timeout_runs_first timeout_first due (tick (S k))) eqn:Efirst.
    + replace (S n + 2)%nat with (S (S (S n))) by lia.
      rewrite (event_loop_fire _ k st due); try done.
      exists (onTimeout due st), (queries st).
      split_inv; try done. by apply onTimeout_pending.
    + change (S n + 2)%nat with (S (n + 2)).
      rewrite event_loop_tick by (try done; by rewrite Hto).
      apply polls_before in Efirst.
      destruct (Hph (S k)) as (o & Ho & Ht); [lia|done|].
      rewrite (checkIfDone_placeholder _ _ _ Ho Ht).
      assert (Hsame : startTimeout timeout (tick (S k)) (count_query st) = count_query st).
      { unfold startTimeout. cbn. by rewrite Hto. }
      rewrite Hsame.
      destruct (IH (S k) (incr_tries (count_query st)) due)
        as (st' & q & H1 & H2 & H3 & H4); try done.
      * intros j Hj. apply Hph. lia.
      * rewrite tick_succ. lia.
      * exists st', q. split_inv; done.
Qed.

Lemma delay_nonneg : 0 <= timeout -> delay = timeout.
Proof. unfold CellRun.delay. lia. Qed.

Lemma stalled_run (j0 : nat) :
  (j0 <= 1)%nat ->
  (j0 = 1%nat -> output start = None) ->
  (forall j, (j0 <= j)%nat -> tick j <= tick j0 + delay -> placeholder_at (tick j)) ->
  exists st' q,
    (forall fuel, (enough_fuel <= fuel)%nat ->
       code_cell_run output timeout timeout_first start fuel = Some st')
    /\ promise st' = Some (mkSettled None (tick j0 + delay) q)
    /\ armed_at st' = [tick j0]
    /\ fired_at st' = [tick j0 + delay].
Proof.
  intros Hj0 Hnone Hph.
  set (N := (Z.to_nat (delay / pollInterval) + 1)%nat).
  assert (HN : delay < pollInterval * Z.of_nat N) by apply delay_bound.
  assert (0 <= delay) by (unfold CellRun.delay; lia).
  assert (Hgen : forall st' n, (n <= N + 3)%nat ->
    event_loop output timeout timeout_first start n 0 executor = Some st' ->
    forall fuel, (enough_fuel <= fuel)%nat ->
    code_cell_run output timeout timeout_first start fuel = Some st').
  { intros st' n Hn Hrun fuel Hfuel. unfold code_cell_run.
    replace fuel with (n + (fuel - n))%nat by (unfold CellRun.enough_fuel in *; lia).
    by apply event_loop_more_fuel. }
  destruct (decide (j0 = 0%nat)) as [->|Hj1].
  - destruct (Hph 0%nat) as (o & Ho & Ht); [lia|lia|]. rewrite tick_0 in Ho.
    destruct (loop_stalled N 0 executor (tick 0 + delay))
      as (st' & q & H1 & H2 & H3 & H4).
    + unfold CellRun.executor. done.
    + unfold CellRun.executor. rewrite (checkIfDone_placeholder _ _ _ Ho Ht).
      cbn. by rewrite tick_0.
    + unfold CellRun.executor. rewrite (checkIfDone_placeholder _ _ _ Ho Ht). done.
    + intros j Hj. apply Hph. lia.
    + lia.
    + exists st', q. split_inv; try done.
      * apply (Hgen st' (N + 2)%nat); [lia|done].
      * rewrite H3. unfold CellRun.executor.
        rewrite (checkIfDone_placeholder _ _ _ Ho Ht). cbn. by rewrite tick_0.
      * rewrite H4. unfold CellRun.executor.
        rewrite (checkIfDone_placeholder _ _ _ Ho Ht). done.
  - assert (j0 = 1%nat) as -> by lia. specialize (Hnone eq_refl).
    destruct (Hph 1%nat) as (o & Ho & Ht); [lia|lia|].
    assert (Hex : executor = mkState 1 (Some start) None None 1 [] [] []).
    { unfold CellRun.executor.
      rewrite (checkIfDone_none_first start initial Hnone eq_refl). done. }
    destruct (loop_stalled N 1 (checkIfDone (tick 1) executor) (tick 1 + delay))
      as (st' & q & H1 & H2 & H3 & H4).
    + rewrite (checkIfDone_placeholder _ _ _ Ho Ht), Hex. done.
    + rewrite (checkIfDone_placeholder _ _ _ Ho Ht), Hex. done.
    + rewrite (checkIfDone_placeholder _ _ _ Ho Ht), Hex. done.
    + intros j Hj. apply Hph. lia.
    + lia.
    + exists st', q. split_inv; try done.
      * apply (Hgen st' (S (N + 2))); [lia|].
        rewrite event_loop_tick; [exact H1| |]; by rewrite Hex.
      * rewrite H3, (checkIfDone_placeholder _ _ _ Ho Ht), Hex. done.
      * rewrite H4, (checkIfDone_placeholder _ _ _ Ho Ht), Hex. done.
Qed.

(** Polling goes on after the call has resolved only when the first,
    synchronous check resolved it: [timer] is assigned after that check, so
    its [clearInterval] had nothing to clear. *)
Lemma polling_after_resolution (k : nat) (st : poll_state) :
  reachable k st -> timer st <> None -> promise st <> None ->
  resolved_by_first_check output start st.
Proof.
  intros Hr Htm Hpr.
  pose proof (reachable_Inv _ _ Hr) as (_ & _ & _ & _ & _ & _ & _ & _ & H & _).
  destruct (H Htm) as [?|[? _]]; done.
Qed.

(** X20: in the code branch of [waitForCellRun], with [0 <= timeout < 2^31]
    (the range in which the host's [setTimeout] takes the delay as it is
    given):
    (a) a poll that observes an output node whose text is exactly the
    loading-widget placeholder arms a timeout due [timeout] later, unless
    one is armed already, which it keeps; over the whole call the timeout is
    armed at most once, and only at such a poll;
    (b) when the timeout fires, it does so exactly [timeout] after it was
    armed, hence no earlier than [timeout] and no later than [timeout +
    pollInterval] after; its callback calls [resolve] with nothing, which
    resolves the call at that time if it is still pending; and it is
    pending then, unless the first, synchronous check had found a finished
    output and resolved it;
    (c) a poll that observes any other output node clears the timeout and
    the interval and calls [resolve] with that node, which resolves the
    call if it is still pending;
    (d) if every poll from the first one that finds an output node (the
    first or the second poll) finds the placeholder until the timeout is
    due, the call does resolve with nothing, [timeout] after that poll. *)
Theorem waitForCellRun_loading_widget_timeout :
  0 <= timeout < 2 ^ 31 ->
  (forall now st, placeholder_at now ->
     timeoutTimer (checkIfDone now st)
       = Some (match timeoutTimer st with Some due => due | None => now + timeout end)
     /\ promise (checkIfDone now st) = promise st)
  /\ (forall k st, reachable k st ->
        (length (armed_at st) <= 1)%nat
        /\ forall a, In a (armed_at st) -> placeholder_at a)
  /\ (forall k st due, reachable k st ->
        next_event k st = Some (TimeoutFires due) ->
        exists a, armed_at st = [a]
          /\ due = a + timeout
          /\ a + timeout <= due <= a + timeout + pollInterval
          /\ resolve_calls (onTimeout due st) = (due, None) :: resolve_calls st
          /\ (promise st = None ->
              promise (onTimeout due st) = Some (mkSettled None due (queries st)))
          /\ (promise st = None \/ resolved_by_first_check output start st))
  /\ (forall now st o, output now = Some o -> textContent o <> loading_widget ->
        timeoutTimer (checkIfDone now st) = None
        /\ timer (checkIfDone now st) = None
        /\ fired_at (checkIfDone now st) = fired_at st
        /\ resolve_calls (checkIfDone now st) = (now, Some o) :: resolve_calls st
        /\ (promise st = None ->
            promise (checkIfDone now st)
              = Some (mkSettled (Some o) now (S (queries st)))))
  /\ (forall j0, (j0 <= 1)%nat ->
        (j0 = 1%nat -> output start = None) ->
        (forall j, (j0 <= j)%nat -> tick j <= tick j0 + timeout ->
           placeholder_at (tick j)) ->
        exists st' q,
          (forall fuel, (enough_fuel <= fuel)%nat ->
             code_cell_run output timeout timeout_first start fuel = Some st')
          /\ promise st' = Some (mkSettled None (tick j0 + timeout) q)
          /\ armed_at st' = [tick j0]
          /\ fired_at st' = [tick j0 + timeout]).
Proof.
  intros [Hpos _]. pose proof (delay_nonneg Hpos) as Hdelay.
  split_inv.
  - intros now st (o & Ho & Ht). rewrite (checkIfDone_placeholder _ _ _ Ho Ht).
    unfold startTimeout. cbn. destruct (timeoutTimer st) eqn:E; cbn; [done|].
    rewrite Hdelay. done.
  - intros k st Hr.
    pose proof (reachable_Inv _ _ Hr) as (_ & _ & _ & _ & _ & Hlen & Har & _).
    split; [done|]. intros a Ha. by apply Har.
  - intros k st due Hr Hnext.
    pose proof (reachable_Inv _ _ Hr) as (_ & Hlive & _ & Hdue & _ & _ & _ & _ & Hpend & _).
    assert (Hto : timeoutTimer st = Some due).
    { revert Hnext. unfold CellRun.next_event.
      destruct (timer st), (timeoutTimer st) as [d|]; try done.
      - destruct (timeout_runs_first _ _ _); congruence.
      - congruence. }
    assert (Htm : timer st <> None).
    { intros Htm. specialize (Hlive Htm). congruence. }
    destruct (Hdue due Hto) as (a & Ha & ->). rewrite Hdelay.
    exists a. split_inv; try done; try (unfold pollInterval; lia).
    + intros Hpr. rewrite <- Hdelay. by apply onTimeout_pending.
    + destruct (Hpend Htm) as [?|[? _]]; [by left|by right].
  - intros now st o Ho Ht. rewrite (checkIfDone_finished _ _ _ Ho Ht). cbn.
    split_inv; try done. intros Hpr. unfold resolve. cbn. by rewrite Hpr.
  - intros j0 Hj0 Hnone Hph.
    destruct (stalled_run j0 Hj0 Hnone) as (st' & q & H); [|rewrite Hdelay in H; eauto].
    intros j Hj Hle. apply Hph; [done|]. by rewrite <- Hdelay.
Qed.

(** X21: in the code branch of [waitForCellRun]:
    (a) the first poll, the synchronous one, finding no output node does not
    call [resolve]: the call stays pending, nothing is armed, and the
    interval is started;
    (b) every later poll, that is every tick of the interval, finding no
    output node clears both timers and calls [resolve] with nothing, which
    resolves the call at that tick if it is still pending; and it is
    pending then, unless the first, synchronous check had found a finished
    output and resolved it;
    (c) with no output node at the first two polls the call does resolve
    with nothing at the second poll. *)
Theorem waitForCellRun_no_output_node :
  (output start = None ->
     promise executor = None /\ resolve_calls executor = []
     /\ timeoutTimer executor = None
     /\ timer executor = Some start /\ numTries executor = 1%nat)
  /\ (forall k st, reachable k st -> next_event k st = Some Tick ->
        output (tick (S k)) = None ->
        let st' := checkIfDone (tick (S k)) st in
        timer st' = None /\ timeoutTimer st' = None
        /\ resolve_calls st' = (tick (S k), None) :: resolve_calls st
        /\ (promise st = None ->
            promise st' = Some (mkSettled None (tick (S k)) (S (queries st))))
        /\ (promise st = None \/ resolved_by_first_check output start st))
  /\ (output start = None -> output (tick 1) = None ->
      exists st',
        (forall fuel, (2 <= fuel)%nat ->
           code_cell_run output timeout timeout_first start fuel = Some st')
        /\ promise st' = Some (mkSettled None (tick 1) 2)).
Proof.
  split_inv.
  - intros Ho. unfold CellRun.executor.
    rewrite (checkIfDone_none_first start initial Ho eq_refl). done.
  - intros k st Hr Hnext Ho st'. subst st'.
    pose proof (reachable_Inv _ _ Hr) as (Hn & _ & _ & _ & _ & _ & _ & _ & Hpend & _).
    assert (Htm : timer st <> None).
    { revert Hnext. unfold CellRun.next_event.
      destruct (timer st), (timeoutTimer st); done. }
    rewrite (checkIfDone_none_later _ _ Ho) by lia. cbn.
    split_inv; try done.
    + intros Hpr. unfold resolve. cbn. by rewrite Hpr.
    + destruct (Hpend Htm) as [?|[? _]]; [by left|by right].
  - intros Ho0 Ho1.
    assert (Hex : executor = mkState 1 (Some start) None None 1 [] [] []).
    { unfold CellRun.executor.
      rewrite (checkIfDone_none_first start initial Ho0 eq_refl). done. }
    exists (checkIfDone (tick 1) executor). split.
    + intros fuel Hfuel. unfold code_cell_run.
      replace fuel with (2 + (fuel - 2))%nat by lia.
      apply event_loop_more_fuel.
      rewrite event_loop_tick by (by rewrite Hex).
      apply event_loop_quiescent;
        rewrite (checkIfDone_none_later _ _ Ho1) by (rewrite Hex; cbn; lia); done.
    + rewrite (checkIfDone_none_later _ _ Ho1) by (rewrite Hex; cbn; lia).
      rewrite Hex. done.
Qed.

End CodeCellFacts.

Lemma waitForCellRun_loading_widget_timeout_witness :
  exists st' q,
    code_cell_run stalled_widget 2000 true 0 (enough_fuel 2000) = Some st'
    /\ promise st' = Some (mkSettled None 2000 q).
Proof.
  destruct (waitForCellRun_loading_widget_timeout stalled_widget 2000 true 0)
    as (_ & _ & _ & _ & H); [lia|].
  destruct (H 0%nat) as (st' & q & Hrun & Hpr & _).
  - lia.
  - discriminate.
  - intros j _ _. exists placeholder_node. split; reflexivity.
  - exists st', q. split; [apply Hrun; lia | exact Hpr].
Defined.

Lemma waitForCellRun_no_output_node_witness :
  exists st',
    code_cell_run no_output 2000 true 0 2 = Some st'
    /\ promise st' = Some (mkSettled None 200 2).
Proof.
  destruct (waitForCellRun_no_output_node no_output 2000 true 0) as (_ & _ & H).
  destruct (H eq_refl eq_refl) as (st' & Hrun & Hpr).
  exists st'. split; [apply Hrun; lia | exact Hpr].
Defined.

Lemma waitForCellRun_blank_source_witness :
  waitForCellRun (fun _ _ _ => None) (fun _ _ _ => None) true
    (mkCellWidget (lit "  ") code 0 None (fun _ => false)) None 0 0
  = Some (mkSettled None 0 0).
Proof.
  apply (waitForCellRun_blank_source (fun _ _ _ => None) (fun _ _ _ => None) true
           (mkCellWidget (lit "  ") code 0 None (fun _ => false)) None 0 0).
  reflexivity.
Defined.

(** C4, on the code.  The first, synchronous check finds a finished output
    and resolves the call with it; [timer] is assigned only afterwards, so
    the interval is not cleared and polling goes on.
    (a) The poll at 200 ms observes the placeholder and arms the timeout,
    which fires at 2200 ms with the placeholder still showing: [resolve] is
    called with nothing, but the call has resolved with the output node, at
    0 ms and not between 2200 and 2400 ms.  This holds in either order of the
    two callbacks due at 2200 ms.
    (b) The poll at 200 ms observes the placeholder and arms the timeout; a
    different finished output appears at 400 ms, before the timeout is due:
    the timeout is cancelled and [resolve] is called with that node, but
    the call has resolved with the first node. *)
Theorem placeholder_seen_after_first_check :
  promise (executor output_then_placeholder 2000 0)
  = Some (mkSettled (Some finished_node) 0 1)
  /\ placeholder_at output_then_placeholder 200
  /\ placeholder_at output_then_placeholder 2200
  /\ code_cell_run output_then_placeholder 2000 true 0 20
     = Some (mkState 11 None None (Some (mkSettled (Some finished_node) 0 1))
               11 [200] [2200] [(2200, None); (0, Some finished_node)])
  /\ code_cell_run output_then_placeholder 2000 false 0 20
     = Some (mkState 12 None None (Some (mkSettled (Some finished_node) 0 1))
               12 [200] [2200] [(2200, None); (0, Some finished_node)])
  /\ placeholder_at output_then_other 200
  /\ output_then_other 400 = Some other_node
  /\ code_cell_run output_then_other 2000 true 0 20
     = Some (mkState 3 None None (Some (mkSettled (Some finished_node) 0 1))
               3 [200] [] [(400, Some other_node); (0, Some finished_node)]).
Proof.
  split_and!; try reflexivity;
    exists placeholder_node; split; reflexivity.
Qed.

(** C5, on the code.  The first, synchronous check finds a finished output
    and resolves the call with it; the interval is created all the same.
    The second poll, at 200 ms, observes no output node and, [numTries]
    being 1, calls [resolve] with nothing; but the call has resolved with
    the output node: it does not resolve with nothing. *)
Theorem no_output_seen_after_first_check :
  promise (executor output_then_nothing 2000 0)
  = Some (mkSettled (Some finished_node) 0 1)
  /\ timer (executor output_then_nothing 2000 0) = Some 0
  /\ output_then_nothing 200 = None
  /\ code_cell_run output_then_nothing 2000 true 0 20
     = Some (mkState 2 None None (Some (mkSettled (Some finished_node) 0 1))
               2 [] [] [(200, None); (0, Some finished_node)]).
Proof. split_and!; reflexivity. Qed.

(** On a code cell with a source that is not blank, [waitForCellRun] is the
    two prompt waits followed by the code branch. *)
Lemma waitForCellRun_code_cell
    (querySelector evaluate : root -> jsstring -> Z -> option Node)
    (timeout_first : bool) (cell : Cell) (timeout : Z) (now : Z) (fuel : nat)
    (s1 s2 s : settled) (st : poll_state) :
  trim (model_text cell) <> [] -> model_type cell = code ->
  waitForXPath evaluate (prompt_xpath emptyPrompt) (Some (node cell))
    hidden_true now fuel = Some s1 ->
  waitForXPath evaluate (prompt_xpath runningPrompt) (Some (node cell))
    hidden_true (at_time s1) fuel = Some s2 ->
  code_cell_run (querySelector (Subtree (node cell)) output_selector)
    timeout timeout_first (at_time s2) fuel = Some st ->
  promise st = Some s ->
  waitForCellRun querySelector evaluate timeout_first cell (Some timeout) now fuel
  = Some (add_queries (dom_queries s1 + dom_queries s2) s).
Proof.
  intros Hsrc Hty H1 H2 H3 H4. unfold waitForCellRun.
  destruct (trim (model_text cell)); [done|]. cbn [truthy negb].
  by rewrite H1, H2, Hty, H3, H4.
Qed.

(** The whole of [waitForCellRun] on [sample_cell], called at time 0 with
    the default timeout: the empty prompt is seen gone at 400 ms, the
    running prompt at 800 ms, the placeholder arms the timeout at once, and
    the call resolves with nothing at 2800 ms. *)
Example waitForCellRun_sample :
  waitForCellRun sample_querySelector sample_evaluate true sample_cell None 0 20
  = Some (mkSettled None 2800 14).
Proof. vm_compute. reflexivity. Qed.

End CellRunFacts.

(** ** Doubles and the rationals they stand for *)
Section DoubleFacts.
Import Orchestrator.
Import PrimFloat SpecFloat FloatOps FloatAxioms.

Lemma digits2_pos_bounds (m : positive) :
  2 ^ (Zpos (digits2_pos m) - 1) <= Zpos m < 2 ^ Zpos (digits2_pos m).
Proof.
  induction m as [m IH|m IH|]; cbn [digits2_pos].
  - rewrite Pos2Z.inj_succ.
    replace (Z.succ (Zpos (digits2_pos m)) - 1)
      with (Z.succ (Zpos (digits2_pos m) - 1)) by lia.
    rewrite !Z.pow_succ_r by lia. lia.
  - rewrite Pos2Z.inj_succ.
    replace (Z.succ (Zpos (digits2_pos m)) - 1)
      with (Z.succ (Zpos (digits2_pos m) - 1)) by lia.
    rewrite !Z.pow_succ_r by lia. lia.
  - cbn. lia.
Qed.

(** What [valid_binary] says of a finite double: at most 53 digits, and
    exactly 53 unless the exponent is the least one. *)
Lemma bounded_digits (m : positive) (e : Z) :
  bounded prec emax m e = true ->
  Zpos (digits2_pos m) <= 53
  /\ (Zpos (digits2_pos m) = 53 \/ e = -1074).
Proof.
  unfold bounded, canonical_mantissa, fexp, SpecFloat.emin, prec, emax.
  rewrite andb_true_iff, Z.eqb_eq. intros [H _]. lia.
Qed.

Lemma two_power_pos (e : Z) : (0 < 2 ^ e)%Q.
Proof. apply Qpower_0_lt. reflexivity. Qed.

Lemma mag_pos (m : positive) (e : Z) : (0 < mag m e)%Q.
Proof.
  unfold mag. apply Qmult_lt_0_compat; [|apply two_power_pos].
  unfold Qlt. cbn. lia.
Qed.

Lemma two_power_split (e d : Z) :
  0 <= d -> (2 ^ (e + d) == 2 ^ e * inject_Z (2 ^ d))%Q.
Proof.
  intros Hd. rewrite Qpower_plus by discriminate.
  rewrite (Zpower_Qpower 2 d Hd). reflexivity.
Qed.

Lemma mag_same_exponent (m1 m2 : positive) (e : Z) :
  (mag m1 e < mag m2 e)%Q <-> (m1 < m2)%positive.
Proof.
  unfold mag. rewrite (Qmult_lt_r _ _ _ (two_power_pos e)).
  rewrite <- Zlt_Qlt. reflexivity.
Qed.

Lemma mag_lower_exponent (m1 m2 : positive) (e1 e2 : Z) :
  bounded prec emax m1 e1 = true -> bounded prec emax m2 e2 = true ->
  e1 < e2 -> (mag m1 e1 < mag m2 e2)%Q.
Proof.
  intros H1 H2 He.
  destruct (bounded_digits _ _ H1) as [Hd1 Hc1].
  destruct (bounded_digits _ _ H2) as [Hd2 Hc2].
  assert (He1 : -1074 <= e1).
  { revert H1. unfold bounded, canonical_mantissa, fexp, SpecFloat.emin, prec, emax.
    rewrite andb_true_iff, Z.eqb_eq. lia. }
  assert (Hn2 : Zpos (digits2_pos m2) = 53) by lia.
  pose proof (digits2_pos_bounds m1) as [_ Hm1].
  pose proof (digits2_pos_bounds m2) as [Hm2 _]. rewrite Hn2 in Hm2.
  assert (Hm1' : Zpos m1 < 2 ^ 53).
  { eapply Z.lt_le_trans; [exact Hm1|]. apply Z.pow_le_mono_r; lia. }
  unfold mag. replace e2 with (e1 + (e2 - e1)) by lia.
  rewrite two_power_split by lia.
  rewrite (Qmult_comm (2 ^ e1)), Qmult_assoc.
  rewrite (Qmult_lt_r _ _ _ (two_power_pos e1)).
  rewrite <- inject_Z_mult, <- Zlt_Qlt.
  assert (2 <= 2 ^ (e2 - e1)).
  { change 2 with (2 ^ 1) at 1. apply Z.pow_le_mono_r; lia. }
  change (2 ^ (53 - 1)) with 4503599627370496 in Hm2.
  change (2 ^ 53) with 9007199254740992 in Hm1'. nia.
Qed.

(** The order of two valid finite magnitudes is that of their exponents,
    then of their digits. *)
Lemma mag_lt_iff (m1 m2 : positive) (e1 e2 : Z) :
  bounded prec emax m1 e1 = true -> bounded prec emax m2 e2 = true ->
  (mag m1 e1 < mag m2 e2)%Q
  <-> match e1 ?= e2 with
      | Lt => True
      | Gt => False
      | Eq => (m1 < m2)%positive
      end.
Proof.
  intros H1 H2. destruct (Z.compare_spec e1 e2) as [->|He|He].
  - apply mag_same_exponent.
  - split; [done|]. intros _. by apply mag_lower_exponent.
  - split; [|done]. intros H.
    apply (Qlt_irrefl (mag m1 e1)). eapply Qlt_trans; [exact H|].
    by apply mag_lower_exponent.
Qed.

Lemma compare_cont_lt (m1 m2 : positive) :
  Pos.compare_cont Eq m1 m2 = Lt <-> (m1 < m2)%positive.
Proof. reflexivity. Qed.

Lemma compare_cont_gt (m1 m2 : positive) :
  Pos.compare_cont Eq m1 m2 = Gt <-> (m2 < m1)%positive.
Proof. fold (Pos.compare m1 m2). rewrite Pos.compare_gt_iff. reflexivity. Qed.

(** [SFltb] on valid finite doubles is the order of the rationals. *)
Lemma SFltb_exact (x y : spec_float) (q r : Q) :
  valid_binary x = true -> valid_binary y = true ->
  SF2Q x = Some q -> SF2Q y = Some r ->
  SFltb x y = true <-> (q < r)%Q.
Proof.
  intros Hx Hy Hq Hr. unfold SFltb.
  destruct x as [sx|sx| |sx mx ex], y as [sy|sy| |sy my ey]; try discriminate;
    cbn in Hq, Hr; simplify_eq; cbn [SFcompare valid_binary] in *.
  - split; [done|]. intros H. by apply Qlt_irrefl in H.
  - fold (mag my ey). pose proof (mag_pos my ey) as Hp.
    destruct sy.
    + split; [done|]. intros H. exfalso.
      apply (Qlt_irrefl 0%Q). eapply Qlt_trans; [exact H|].
      rewrite <- (Qopp_involutive 0%Q). apply Qopp_lt_compat. exact Hp.
    + split; [by intros _|done].
  - fold (mag mx ex). pose proof (mag_pos mx ex) as Hp.
    destruct sx.
    + split; [intros _|done].
      rewrite <- (Qopp_involutive 0%Q). apply Qopp_lt_compat. exact Hp.
    + split; [done|]. intros H. exfalso.
      apply (Qlt_irrefl 0%Q). by eapply Qlt_trans.
  - fold (mag mx ex) (mag my ey).
    pose proof (mag_pos mx ex) as Hpx. pose proof (mag_pos my ey) as Hpy.
    pose proof (mag_lt_iff mx my ex ey Hx Hy) as Hxy.
    pose proof (mag_lt_iff my mx ey ex Hy Hx) as Hyx.
    rewrite Z.compare_antisym in Hyx.
    assert (Hneg0 : forall a, (0 < a)%Q -> (- a < 0)%Q).
    { intros a Ha. rewrite <- (Qopp_involutive 0%Q). by apply Qopp_lt_compat. }
    destruct sx, sy.
    + (* both negative *)
      assert (Hopp : (- mag mx ex < - mag my ey)%Q <-> (mag my ey < mag mx ex)%Q).
      { split; intros H; [|by apply Qopp_lt_compat].
        apply Qopp_lt_compat in H. by rewrite !Qopp_involutive in H. }
      rewrite Hopp, Hyx.
      destruct (ex ?= ey) eqn:E; cbn [CompOpp]; try done.
      rewrite <- compare_cont_gt.
      destruct (Pos.compare_cont Eq mx my); cbn; split; done.
    + split; [intros _|done].
      eapply Qlt_trans; [by apply Hneg0|done].
    + split; [done|]. intros H. exfalso.
      apply (Qlt_irrefl 0%Q). eapply Qlt_trans; [exact Hpx|].
      eapply Qlt_trans; [exact H|]. by apply Hneg0.
    + rewrite Hxy. destruct (ex ?= ey) eqn:E; try done.
      rewrite <- compare_cont_lt.
      destruct (Pos.compare_cont Eq mx my); split; done.
Qed.

(** [a > b] on two finite doubles is the order of the rationals they
    stand for. *)
Lemma gtb_exact (a b : float) (q r : Q) :
  is_exactly a q -> is_exactly b r ->
  gtb a b = Qgtb q r.
Proof.
  intros (v & Hv & Hq) (w & Hw & Hr). unfold gtb, Qgtb.
  rewrite ltb_spec.
  apply eq_true_iff_eq.
  rewrite (SFltb_exact _ _ w v (Prim2SF_valid b) (Prim2SF_valid a) Hw Hv).
  rewrite negb_true_iff, <- not_true_iff_false, Qle_bool_iff, Hq, Hr.
  split; [apply Qlt_not_le | apply Qnot_le_lt].
Qed.

(** [Math.abs] on a finite double is exact. *)
Lemma abs_exact (a : float) (q : Q) :
  is_exactly a q -> is_exactly (abs a) (Qabs q).
Proof.
  intros (v & Hv & Hq). unfold is_exactly, exact_value in *.
  rewrite abs_spec.
  destruct (Prim2SF a) as [s|s| |s m e]; try discriminate; cbn in *; simplify_eq.
  - exists 0%Q. split; [done|]. by rewrite <- Hq.
  - eexists. split; [reflexivity|]. rewrite <- Hq.
    pose proof (mag_pos m e) as Hp. fold (mag m e).
    destruct s.
    + rewrite Qabs_opp, Qabs_pos; [reflexivity|by apply Qlt_le_weak].
    + rewrite Qabs_pos; [reflexivity|by apply Qlt_le_weak].
Qed.

(** A comparison with NaN is [false]. *)
Lemma gtb_nan (a b : float) :
  isNaN a = true \/ isNaN b = true -> gtb a b = false.
Proof.
  unfold gtb, isNaN. rewrite ltb_spec. unfold SFltb.
  destruct (Prim2SF a) as [| | |], (Prim2SF b) as [| | |]; cbn;
    intros [H|H]; done.
Qed.

(** NaN goes through subtraction, multiplication, division and
    [Math.abs]. *)
Lemma nan_propagates (a b : float) :
  isNaN a = true \/ isNaN b = true ->
  isNaN (a - b) = true /\ isNaN (a * b) = true /\ isNaN (a / b) = true.
Proof.
  unfold isNaN. rewrite sub_spec, mul_spec, div_spec.
  unfold SF64sub, SF64mul, SF64div, SFsub, SFmul, SFdiv.
  destruct (Prim2SF a) as [| | |], (Prim2SF b) as [| | |]; cbn;
    intros [H|H]; done.
Qed.

Lemma abs_nan (a : float) : isNaN a = true -> isNaN (abs a) = true.
Proof.
  unfold isNaN. rewrite abs_spec. by destruct (Prim2SF a).
Qed.

End DoubleFacts.

(** ** Scroll prediction and the cell-by-cell run *)
Section OrchestratorFacts.
Import Waiter Orchestrator RunTrace.
Import PrimFloat.

Lemma is_exactly_proper (x : float) (q r : Q) :
  is_exactly x q -> (q == r)%Q -> is_exactly x r.
Proof. intros (v & Hv & Hq) Hr. exists v. split; [done|]. by rewrite Hq. Qed.

(** An iteration all of whose promises fulfil returns, and its events are
    those of [settled_trace]. *)
Lemma iteration_settled (cb : INotebookRunCallback) (i : nat)
    (cell : cell_view) (output : option Node) :
  settles cb i cell -> wait_outcome cell = Fulfilled output ->
  iteration (Some cb) i cell = (Returns tt, settled_trace cb i cell output).
Proof.
  intros (Hrun & _ & Hafter & Hbefore & Hscrolled) Hwait.
  unfold iteration, settled_trace. rewrite Hrun, Hwait. cbn [member].
  destruct (onAfterCellRun cb) as [f|]; [rewrite (Hafter f eq_refl)|];
    (destruct (onBeforeScroll cb) as [g|]; [rewrite (Hbefore g eq_refl)|]);
    (destruct (onAfterScroll cb) as [h|]; [rewrite (Hscrolled h eq_refl)|]);
    cbn -[notebookWillScroll Z.eqb];
    destruct (notebookWillScroll _ _ _);
    try destruct (Z.eqb _ _); reflexivity.
Qed.




(** *** The events of an iteration, whatever the promises do *)

Lemma bind_In {A B} (m : M A) (k : A -> M B) (e : event) :
  In e (m ≫= k).2 ->
  In e m.2 \/ exists a, m.1 = Returns a /\ In e (k a).2.
Proof.
  destruct m as [[a| |] tr]; cbn; [|by left..].
  destruct (k a) as [r tr'] eqn:E. cbn. intros H.
  apply in_app_or in H as [H|H]; [by left|right].
  exists a. by rewrite E.
Qed.

Lemma bind_returns {A B} (m : M A) (k : A -> M B) (b : B) :
  (m ≫= k).1 = Returns b ->
  exists a, m.1 = Returns a /\ (k a).1 = Returns b
            /\ (m ≫= k).2 = m.2 ++ (k a).2.
Proof.
  destruct m as [[a| |] tr]; cbn; [|done..].
  destruct (k a) as [r tr'] eqn:E. cbn. intros ->. exists a. by rewrite E.
Qed.

Lemma bind_trace (m : M unit) (k : M unit) :
  (m ;; k).2 = match m.1 with
               | Returns _ => m.2 ++ k.2
               | _ => m.2
               end.
Proof. destruct m as [[[]| |] tr], k as [r tr']; reflexivity. Qed.

Lemma await_returns {A} (p : await A) (a : A) :
  (await_ p).1 = Returns a -> p = Fulfilled a.
Proof. destruct p; cbn; congruence. Qed.

Lemma await_silent {A} (p : await A) : (await_ p).2 = [].
Proof. by destruct p. Qed.

(** Follow an event of a sequence of steps down to the step that caused
    it, keeping what the earlier steps returned. *)
Ltac find_event H :=
  repeat first
    [ apply bind_In in H as [H|(? & ? & H)]; cbn beta in H
    | rewrite await_silent in H; destruct H
    | match type of H with
      | In _ (emit _).2 => cbn in H; destruct H as [H|[]]
      | In _ (mret _).2 => destruct H
      | In _ (when ?b _).2 => destruct b eqn:?; cbn [when] in H
      | In _ (match ?x with Some _ => _ | None => _ end).2 =>
          destruct x eqn:?
      end ].

Ltac await_facts :=
  repeat match goal with
         | H : (await_ _).1 = Returns _ |- _ => apply await_returns in H
         end.

(** The events of one iteration. *)
Lemma iteration_events (callback : option INotebookRunCallback) (i : nat)
    (cell : cell_view) :
  let r := iteration callback i cell in
  (r.1 = Returns tt ->
     run_outcome cell = Fulfilled tt
     /\ (exists o, wait_outcome cell = Fulfilled o)
     /\ forall f, member callback onAfterCellRun = Some f -> f i = Fulfilled tt)
  /\ (forall m, In (RunStart m) r.2 -> m = i)
  /\ (forall e, In e r.2 -> scroll_callback e = true ->
        exists o, wait_outcome cell = Fulfilled o
          /\ predicted cell o = true
          /\ member callback (callback_of e) <> None
          /\ (forall msg, e = ConsoleError msg -> msg = mispredicted)
          /\ forall k, e = BeforeScrollStart k \/ e = AfterScrollStart k -> k = i)
  /\ (forall p t, In (ScrollToPosition p t) r.2 ->
        t = scrollThreshold
        /\ exists o, wait_outcome cell = Fulfilled o
                     /\ p = bottom (anchor o cell))
  /\ ~ In DeselectAll r.2.
Proof.
  cbn zeta. unfold iteration, predicted. split_and!.
  - intros H.
    repeat (apply bind_returns in H as (? & ? & H & _)). await_facts.
    split_and!.
    + match goal with
      | Hr : run_outcome cell = Fulfilled ?x |- _ => by destruct x
      end.
    + eauto.
    + intros f Hf.
      match goal with
      | Ha : (match member callback onAfterCellRun with _ => _ end).1 = _ |- _ =>
          rewrite Hf in Ha;
          repeat (apply bind_returns in Ha as (? & ? & Ha & _))
      end.
      await_facts.
      match goal with
      | Hr : f i = Fulfilled ?x |- _ => by destruct x
      end.
  - intros m H. find_event H; by simplify_eq.
  - intros e H He. find_event H; subst e; try discriminate He; await_facts;
      (eexists; split_and!;
       [ eassumption | eassumption
       | unfold member in *; destruct callback; cbn in *; congruence
       | intros; by simplify_eq
       | let Hk := fresh in intros ? [Hk|Hk]; by simplify_eq ]).
  - intros p t H. find_event H; simplify_eq. await_facts. split; [done|eauto].
  - intros H. find_event H; by simplify_eq.
Qed.

(** The events of an iteration that returns, when [onAfterCellRun] is
    supplied: the call is made and completes, in that order. *)
Lemma iteration_returned (callback : option INotebookRunCallback) (i : nat)
    (cell : cell_view) (f : nat -> await unit) :
  (iteration callback i cell).1 = Returns tt ->
  member callback onAfterCellRun = Some f ->
  exists before after,
    (iteration callback i cell).2 = before ++ AfterCellRunDone i :: after
    /\ In (AfterCellRunStart i) before.
Proof.
  unfold iteration. intros H Hf. rewrite Hf in H |- *.
  repeat (let Htr := fresh "Htr" in
          apply bind_returns in H as (? & ? & H & Htr);
          cbn beta in Htr; rewrite Htr; clear Htr).
  match goal with
  | Ha : (emit (AfterCellRunStart i) ≫= _).1 = Returns _ |- _ =>
      repeat (let Htr := fresh "Htr" in
              apply bind_returns in Ha as (? & ? & Ha & Htr);
              cbn beta in Htr; rewrite Htr; clear Htr)
  end.
  rewrite !await_silent. cbn [emit snd app].
  eexists [SetActiveCellIndex i; Select i; RunStart i; RunDone i;
           WaitStart i; WaitDone i; AfterCellRunStart i], _.
  split; [reflexivity|]. cbn. tauto.
Qed.

(** *** The events of the loop, whatever the promises do *)

(** An event of the loop is an event of the iteration of some cell, every
    earlier iteration having returned. *)
Lemma for_loop_events (callback : option INotebookRunCallback)
    (widgets : list cell_view) (remaining : nat) :
  forall (i0 : nat) (e : event),
  In e (for_loop callback widgets remaining i0).2 ->
  exists i cell,
    (i0 <= i < i0 + remaining)%nat
    /\ widgets !! i = Some cell
    /\ In e (iteration callback i cell).2
    /\ forall i', (i0 <= i' < i)%nat ->
         exists cell', widgets !! i' = Some cell'
           /\ (iteration callback i' cell').1 = Returns tt.
Proof.
  induction remaining as [|r IH]; intros i0 e He; [destruct He|].
  cbn [for_loop] in He. destruct (widgets !! i0) as [cell|] eqn:E; [|destruct He].
  rewrite bind_trace in He.
  assert (Hhere : In e (iteration callback i0 cell).2 ->
            exists i cell0, (i0 <= i < i0 + S r)%nat /\ widgets !! i = Some cell0
              /\ In e (iteration callback i cell0).2
              /\ forall i', (i0 <= i' < i)%nat ->
                   exists cell', widgets !! i' = Some cell'
                     /\ (iteration callback i' cell').1 = Returns tt).
  { intros H. exists i0, cell. split_and!; [lia|lia|done|done|]. intros i' Hi'. lia. }
  destruct (iteration callback i0 cell).1 as [[]| |] eqn:Eret; [|by apply Hhere..].
  apply in_app_or in He as [He|He]; [by apply Hhere|].
  destruct (IH (S i0) e He) as (i & c & Hi & Hc & Hin & Hprev).
  exists i, c. split_and!; [lia|lia|done|done|].
  intros i' Hi'. destruct (decide (i' = i0)) as [->|Hne]; [eauto|].
  apply Hprev. lia.
Qed.

Lemma run_events (callback : option INotebookRunCallback)
    (widgets : list cell_view) (e : event) :
  In e (runActiveNotebookCellByCell callback (Some widgets)).2 ->
  e = DeselectAll
  \/ exists i cell,
       (i < length widgets)%nat
       /\ widgets !! i = Some cell
       /\ In e (iteration callback i cell).2
       /\ forall i', (i' < i)%nat ->
            exists cell', widgets !! i' = Some cell'
              /\ (iteration callback i' cell').1 = Returns tt.
Proof.
  unfold runActiveNotebookCellByCell.
  destruct (length widgets =? 0)%nat; [intros []|].
  rewrite bind_trace. cbn [emit fst snd app].
  intros [<-|He]; [by left|right].
  destruct (for_loop_events _ _ _ _ _ He) as (i & c & Hi & Hc & Hin & Hprev).
  exists i, c. split_and!; [lia|done|done|]. intros i' Hi'. apply Hprev. lia.
Qed.

(** While the iterations return, the events of the loop are theirs, one
    cell after the other, followed by those of the rest of the loop. *)
Lemma for_loop_prefix (callback : option INotebookRunCallback)
    (widgets : list cell_view) (n : nat) :
  forall (remaining i0 : nat),
  (n <= remaining)%nat ->
  (forall j, (i0 <= j < i0 + n)%nat ->
     exists cell, widgets !! j = Some cell
       /\ (iteration callback j cell).1 = Returns tt) ->
  (for_loop callback widgets remaining i0).2
  = flat_map (events_of callback widgets) (seq i0 n)
    ++ (for_loop callback widgets (remaining - n) (i0 + n)).2.
Proof.
  induction n as [|n IH]; intros remaining i0 Hn Hret.
  - cbn. by rewrite Nat.sub_0_r, Nat.add_0_r.
  - destruct remaining as [|r]; [lia|]. cbn [for_loop seq flat_map].
    destruct (Hret i0) as (cell & Hc & Hr); [lia|].
    unfold events_of at 1. rewrite Hc, bind_trace, Hr.
    rewrite (IH r (S i0)); [|lia|intros j Hj; apply Hret; lia].
    rewrite <- app_assoc. cbn [Nat.sub].
    replace (i0 + S n)%nat with (S i0 + n)%nat by lia. reflexivity.
Qed.

(** The events of the loop from index [i] on, when every promise fulfils. *)
Lemma for_loop_settled (cb : INotebookRunCallback)
    (widgets : list cell_view) (outputs : nat -> option Node) :
  (forall i cell, widgets !! i = Some cell ->
     settles cb i cell /\ wait_outcome cell = Fulfilled (outputs i)) ->
  forall remaining i, (i + remaining = length widgets)%nat ->
  for_loop (Some cb) widgets remaining i
  = (Returns tt,
     flat_map (fun j => match widgets !! j with
                        | Some cell => settled_trace cb j cell (outputs j)
                        | None => []
                        end) (seq i remaining)).
Proof.
  intros Hall remaining. induction remaining as [|r IH]; intros i Hi; [reflexivity|].
  cbn [for_loop seq flat_map].
  destruct (widgets !! i) as [cell|] eqn:E.
  - destruct (Hall i cell E) as [Hs Hw].
    rewrite (iteration_settled cb i cell (outputs i) Hs Hw).
    rewrite (IH (S i)) by lia. reflexivity.
  - apply lookup_ge_None in E. lia.
Qed.


(** *** The order of the calls, whatever the promises do *)

(** An iteration calls [onAfterCellRun] at most once, with its own index;
    it does call it when it returns and the callback is supplied, and does
    not when the callback is not supplied. *)
Lemma iteration_calls (callback : option INotebookRunCallback) (i : nat)
    (cell : cell_view) :
  let r := iteration callback i cell in
  (afterCellRun_calls r.2 = [] \/ afterCellRun_calls r.2 = [i])
  /\ (r.1 = Returns tt -> member callback onAfterCellRun <> None ->
      afterCellRun_calls r.2 = [i])
  /\ (member callback onAfterCellRun = None -> afterCellRun_calls r.2 = []).
Proof.
  unfold iteration.
  destruct (run_outcome cell) as [[]| |];
    cbn -[notebookWillScroll Z.eqb anchor bottom];
    try (split_and!; [by left|done..]).
  destruct (wait_outcome cell) as [output| |];
    cbn -[notebookWillScroll Z.eqb anchor bottom];
    try (split_and!; [by left|done..]).
  generalize (notebookWillScroll (notebook_rect cell)
                (bottom (anchor output cell)) (Some scrollThreshold)).
  intros w.
  destruct (member callback onAfterCellRun) as [f|];
    [destruct (f i) as [[]| |]|];
    (destruct (member callback onBeforeScroll) as [g|];
      [destruct (g i) as [[]| |]|]);
    (destruct (member callback onAfterScroll) as [h|];
      [destruct (h i) as [[]| |]|]);
    destruct w; try destruct (Z.eqb _ _);
    cbn; (split_and!; [auto|intros; congruence || done..]).
Qed.

Lemma for_loop_no_calls (callback : option INotebookRunCallback)
    (widgets : list cell_view) (remaining : nat) :
  member callback onAfterCellRun = None ->
  forall i, afterCellRun_calls (for_loop callback widgets remaining i).2 = [].
Proof.
  intros Hnone. induction remaining as [|r IH]; intros i; [reflexivity|].
  cbn [for_loop]. destruct (widgets !! i) as [cell|]; [|reflexivity].
  rewrite bind_trace.
  destruct (iteration_calls callback i cell) as (_ & _ & Hn). specialize (Hn Hnone).
  destruct (iteration callback i cell).1; try exact Hn.
  unfold afterCellRun_calls in *. by rewrite omap_app, Hn, IH.
Qed.

(** The indices [onAfterCellRun] has been called with are [i], [i + 1],
    ... in that order, each once, up to the cell at which the loop
    stopped. *)
Lemma for_loop_calls (callback : option INotebookRunCallback)
    (widgets : list cell_view) (remaining : nat) :
  forall i, exists m, (m <= remaining)%nat
    /\ afterCellRun_calls (for_loop callback widgets remaining i).2 = seq i m.
Proof.
  destruct (member callback onAfterCellRun) as [f|] eqn:Em;
    [|intros i; exists 0%nat; split; [lia|by apply for_loop_no_calls]].
  induction remaining as [|r IH]; intros i; [by exists 0%nat|].
  cbn [for_loop]. destruct (widgets !! i) as [cell|]; [|exists 0%nat; split; [lia|done]].
  rewrite bind_trace.
  destruct (iteration_calls callback i cell) as (Hcalls & Hret & _).
  destruct (iteration callback i cell).1 as [[]| |] eqn:E.
  - destruct (IH (S i)) as (m & Hm & Hrest).
    exists (S m). split; [lia|].
    unfold afterCellRun_calls in *. rewrite omap_app, Hrest, Hret; [done..|].
    by rewrite Em.
  - destruct Hcalls as [-> | ->]; [exists 0%nat|exists 1%nat]; (split; [lia|done]).
  - destruct Hcalls as [-> | ->]; [exists 0%nat|exists 1%nat]; (split; [lia|done]).
Qed.

(** Whatever the awaited promises do, and whether or not the run returns,
    the indices [onAfterCellRun] has been called with are [0], [1], ...
    in that order, each once, up to the cell at which the run stopped. *)
Lemma runActiveNotebookCellByCell_calls_in_order
    (callback : option INotebookRunCallback) (widgets : list cell_view) :
  exists m, (m <= length widgets)%nat
    /\ afterCellRun_calls (runActiveNotebookCellByCell callback (Some widgets)).2
       = seq 0 m.
Proof.
  unfold runActiveNotebookCellByCell.
  destruct (length widgets =? 0)%nat; [exists 0%nat; split; [lia|done]|].
  rewrite bind_trace. cbn [emit fst snd].
  destruct (for_loop_calls callback widgets (length widgets) 0%nat) as (m & Hm & H).
  exists m. split; [done|]. exact H.
Qed.


(** *** The order of the callbacks *)




(** *** The misprediction diagnostic *)

(** When a scroll was predicted and [onAfterScroll] is supplied, the
    diagnostic is logged exactly when the scroll position after the scroll
    differs from the one before; the iteration returns either way. *)
Lemma mispredicted_logged_iff (cb : INotebookRunCallback)
    (h : nat -> await unit) (i : nat) (cell : cell_view)
    (output : option Node) :
  settles cb i cell -> wait_outcome cell = Fulfilled output ->
  onAfterScroll cb = Some h ->
  notebookWillScroll (notebook_rect cell) (bottom (anchor output cell))
    (Some scrollThreshold) = true ->
  (iteration (Some cb) i cell).1 = Returns tt
  /\ (In (ConsoleError mispredicted) (iteration (Some cb) i cell).2
      <-> scrollTop_after cell <> scrollTop_before cell).
Proof.
  intros Hs Hw Hh Hwill. rewrite (iteration_settled cb i cell output Hs Hw).
  split; [reflexivity|]. unfold settled_trace. rewrite Hwill, Hh.
  cbn -[bottom anchor Z.eqb].
  destruct (Z.eqb_spec (scrollTop_after cell) (scrollTop_before cell));
    destruct (onAfterCellRun cb); destruct (onBeforeScroll cb);
    cbn -[bottom anchor]; intuition congruence.
Qed.

(** C1, on the code: a scroll is predicted for a cell whose input area ends
    at y = 700 in the viewport of top 100 and height 400, and
    [onAfterScroll] is supplied.  When the scroll position goes from 0 to
    220 the run logs the misprediction diagnostic; when the position stays
    at 0 it logs nothing.  The run returns in both cases. *)
Theorem mispredicted_logged_when_scrolled :
  let scrolled :=
    runActiveNotebookCellByCell (Some all_callbacks) (Some [far_cell 0 220]) in
  let stayed :=
    runActiveNotebookCellByCell (Some all_callbacks) (Some [far_cell 0 0]) in
  notebookWillScroll viewport (bottom (inputArea_rect (far_cell 0 220)))
    (Some scrollThreshold) = true
  /\ scrolled.1 = Returns tt
  /\ In (ConsoleError mispredicted) scrolled.2
  /\ stayed.1 = Returns tt
  /\ ~ In (ConsoleError mispredicted) stayed.2.
Proof.
  cbn zeta. split_and!; try reflexivity.
  - vm_compute. tauto.
  - vm_compute. intuition discriminate.
Qed.

End OrchestratorFacts.

(* ===================================================================== *)
(** * Part III: further properties                                        *)
(* ===================================================================== *)

(** ** The DOM condition waiters, in both modes *)
Section WaiterMore.
Import Js Waiter NotebookRun.

(** Whatever the mode, the loop settles at a tick of the interval, never
    at the time it is started, and has made one query per tick. *)
Lemma interval_loop_ticks (found : Z -> option Node) (hidden : bool) (fuel : nat) :
  forall (now : Z) (q : nat) (s : settled),
  interval_loop found hidden now q fuel = Some s ->
  exists n, (1 <= n <= fuel)%nat
    /\ at_time s = tick_time now n
    /\ dom_queries s = (q + n)%nat.
Proof.
  induction fuel as [|fuel IH]; intros now q s H; [discriminate|].
  cbn [interval_loop] in H.
  assert (Hstop : forall v, Some (mkSettled v (now + pollInterval) (S q)) = Some s ->
            exists n, (1 <= n <= S fuel)%nat /\ at_time s = tick_time now n
                      /\ dom_queries s = (q + n)%nat).
  { intros v [= <-]. exists 1%nat. unfold tick_time. cbn. repeat split; lia. }
  assert (Hgo : interval_loop found hidden (now + pollInterval) (S q) fuel = Some s ->
            exists n, (1 <= n <= S fuel)%nat /\ at_time s = tick_time now n
                      /\ dom_queries s = (q + n)%nat).
  { intros H'. destruct (IH _ _ _ H') as (n & Hn & Hat & Hq).
    exists (S n). rewrite Hat, Hq, tick_time_succ. repeat split; lia. }
  destruct (found (now + pollInterval)), hidden; eauto.
Qed.

(** Waiting for presence: a settled loop settled with the node the query
    found at that tick, every earlier tick having found nothing. *)
Lemma interval_loop_present_sound (found : Z -> option Node) (fuel : nat) :
  forall (now : Z) (q : nat) (s : settled),
  interval_loop found false now q fuel = Some s ->
  value s <> None
  /\ found (at_time s) = value s
  /\ exists n, (1 <= n <= fuel)%nat
       /\ at_time s = tick_time now n
       /\ forall j, (1 <= j < n)%nat -> found (tick_time now j) = None.
Proof.
  induction fuel as [|fuel IH]; intros now q s H; [discriminate|].
  cbn [interval_loop] in H.
  destruct (found (now + pollInterval)) as [nd|] eqn:E.
  - injection H as <-. cbn. split_and!; [done|done|].
    exists 1%nat. unfold tick_time. repeat split; lia.
  - destruct (IH _ _ _ H) as (Hv & Hf & n & Hn & Hat & Hbefore).
    split_and!; [done|done|].
    exists (S n). split_and!; [lia|lia|by rewrite Hat, tick_time_succ|].
    intros j Hj. destruct (decide (j = 1%nat)) as [->|Hj1].
    + unfold tick_time. replace (now + pollInterval * Z.of_nat 1)
        with (now + pollInterval) by lia. done.
    + destruct j as [|j]; [lia|]. rewrite <- tick_time_succ. apply Hbefore. lia.
Qed.

Lemma interval_loop_present_complete (found : Z -> option Node) (n : nat) :
  forall (now : Z) (q fuel : nat) (nd : Node),
  (1 <= n <= fuel)%nat ->
  (forall j, (1 <= j < n)%nat -> found (tick_time now j) = None) ->
  found (tick_time now n) = Some nd ->
  interval_loop found false now q fuel
    = Some (mkSettled (Some nd) (tick_time now n) (q + n)).
Proof.
  induction n as [|n IH]; intros now q fuel nd Hn Hbefore Hat; [lia|].
  destruct fuel as [|fuel]; [lia|]. cbn [interval_loop].
  destruct (decide (n = 0%nat)) as [->|Hpos].
  - replace (now + pollInterval) with (tick_time now 1) by (unfold tick_time; lia).
    rewrite Hat. do 2 f_equal. lia.
  - replace (now + pollInterval) with (tick_time now 1) by (unfold tick_time; lia).
    rewrite (Hbefore 1%nat) by lia.
    replace (tick_time now 1) with (now + pollInterval) by (unfold tick_time; lia).
    rewrite (IH (now + pollInterval) (S q) fuel nd).
    + rewrite tick_time_succ. do 2 f_equal. lia.
    + lia.
    + intros j Hj. rewrite tick_time_succ. apply Hbefore. lia.
    + by rewrite tick_time_succ.
Qed.

(** X1: With no option, with [{}] or with [{hidden: false}], [waitForSelector]
    and [waitForXPath] wait for a match: they resolve at the first tick at
    which the query finds a node, with that node, and never without a
    value. *)
Theorem waiters_present_spec
    (query : root -> jsstring -> Z -> option Node)
    (selector : jsstring) (node : option nat)
    (options : option IWaitForSelectorOptions) (now : Z) :
  options = None \/ options = Some (mkOptions None)
    \/ options = Some (mkOptions (Some false)) ->
  let found := query (parent node) selector in
  (forall fuel,
     waitForSelector query selector node options now fuel
     = waitForXPath query selector node options now fuel)
  /\ (forall fuel s,
        waitForSelector query selector node options now fuel = Some s ->
        exists nd n, value s = Some nd
          /\ found (at_time s) = Some nd
          /\ (1 <= n <= fuel)%nat /\ at_time s = tick_time now n
          /\ forall j, (1 <= j < n)%nat -> found (tick_time now j) = None)
  /\ (forall n fuel nd, (1 <= n <= fuel)%nat ->
        (forall j, (1 <= j < n)%nat -> found (tick_time now j) = None) ->
        found (tick_time now n) = Some nd ->
        waitForSelector query selector node options now fuel
        = Some (mkSettled (Some nd) (tick_time now n) n)).
Proof.
  intros Hopt found.
  assert (Hmode : waitForHidden options = false)
    by (destruct Hopt as [->|[->| ->]]; reflexivity).
  unfold waitForSelector, waitForXPath. rewrite Hmode. fold found.
  split_and!.
  - reflexivity.
  - intros fuel s H.
    destruct (interval_loop_present_sound found fuel now 0 s H)
      as (Hv & Hf & n & Hn & Hat & Hbefore).
    destruct (value s) as [nd|] eqn:E; [|done].
    exists nd, n. split_and!; try done; lia.
  - intros n fuel nd Hn Hbefore Hat.
    exact (interval_loop_present_complete found n now 0 fuel nd Hn Hbefore Hat).
Qed.

Lemma waiters_present_spec_witness :
  waitForSelector match_appears (lit ".ready") None None 0 5
  = Some (mkSettled (Some (mkNode 7 [])) 600 3).
Proof.
  pose proof (waiters_present_spec match_appears (lit ".ready") None None 0
                (or_introl eq_refl)) as (_ & _ & H).
  apply (H 3%nat 5%nat (mkNode 7 [])).
  - lia.
  - intros j Hj. assert (j = 1 \/ j = 2)%nat as [-> | ->] by lia; reflexivity.
  - reflexivity.
Defined.

(** X2: In either mode and whatever the DOM holds, a waiter never resolves at
    the time it is called: the first query is made one poll interval
    later, a resolution comes at a whole number of intervals after the
    call, and one query has been made per interval elapsed. *)
Theorem waiters_resolve_on_ticks
    (query : root -> jsstring -> Z -> option Node)
    (selector : jsstring) (node : option nat)
    (options : option IWaitForSelectorOptions) (now : Z) (fuel : nat)
    (s : settled) :
  waitForSelector query selector node options now fuel = Some s
  \/ waitForXPath query selector node options now fuel = Some s ->
  now + pollInterval <= at_time s
  /\ (1 <= dom_queries s)%nat
  /\ at_time s = now + pollInterval * Z.of_nat (dom_queries s).
Proof.
  intros H.
  assert (H' : interval_loop (query (parent node) selector)
                 (waitForHidden options) now 0 fuel = Some s)
    by (destruct H as [H|H]; exact H).
  destruct (interval_loop_ticks _ _ _ _ _ _ H') as (n & Hn & Hat & Hq).
  cbn in Hq. subst n. rewrite Hat. unfold tick_time, pollInterval. lia.
Qed.

Lemma waiters_resolve_on_ticks_witness :
  0 + pollInterval <= 600 /\ (1 <= 3)%nat /\ 600 = 0 + pollInterval * Z.of_nat 3.
Proof.
  apply (waiters_resolve_on_ticks match_appears (lit ".ready") None None 0 5
           (mkSettled (Some (mkNode 7 [])) 600 3)).
  left. reflexivity.
Defined.

End WaiterMore.

(** ** The code branch of [waitForCellRun]: when and with what it settles *)
Section CodeCellMore.
Import Js NotebookModel Waiter CellRun NotebookRun.

Section Times.
Variable output : Z -> option Node.
Variable timeout : Z.
Variable timeout_first : bool.
Variable start : Z.

Local Abbreviation Inv_times := (Inv_times output timeout start).
Local Abbreviation deadline := (deadline timeout start).
Local Abbreviation reachable := (reachable output timeout timeout_first start).
Local Abbreviation checkIfDone := (checkIfDone output timeout).
Local Abbreviation tick := (tick start).

Lemma deadline_bounds : start <= deadline /\ tick 1 <= deadline.
Proof. unfold NotebookRun.deadline, CellRun.tick, delay, pollInterval. lia. Qed.

Lemma Inv_times_executor : Inv_times 0 (executor output timeout start).
Proof.
  pose proof deadline_bounds as [Hd _].
  unfold NotebookRun.Inv_times, executor.
  destruct (output_cases output start) as [Ho | [(o & Ho & Ht) | (o & Ho & Ht)]].
  - rewrite (checkIfDone_none_first output timeout start initial Ho eq_refl). cbn.
    split_and!; done.
  - rewrite (checkIfDone_placeholder output timeout _ _ _ Ho Ht). cbn.
    split_and!; try done.
    intros due [= <-]. unfold NotebookRun.deadline, delay, pollInterval. lia.
  - rewrite (checkIfDone_finished output timeout _ _ _ Ho Ht).
    cbn -[loading_widget].
    split_and!; try done.
    intros s [= <-]. cbn -[loading_widget]. split; [lia|]. intros o' [= <-]. done.
Qed.

Lemma Inv_times_step (k : nat) (st : poll_state) (e : timer_event) :
  Inv output timeout start k st -> Inv_times k st ->
  next_event timeout_first start k st = Some e ->
  Inv_times (run_event output timeout start k st e).1
            (run_event output timeout start k st e).2.
Proof.
  pose proof deadline_bounds as [Hd Hd1].
  intros (Hn & Hlive & _) (Hpr & Hdue & Hk0) Hnext.
  assert (Hkeep : forall st2 out now, promise st2 = promise st ->
            start <= now <= deadline ->
            (forall o, out = Some o ->
               output now = Some o /\ textContent o <> loading_widget) ->
            forall s, resolve out now st2 = Some s ->
            start <= at_time s <= deadline
            /\ forall o, value s = Some o ->
                 output (at_time s) = Some o /\ textContent o <> loading_widget).
  { intros st2 out now Hsame Hnow Hout s. unfold resolve. rewrite Hsame.
    destruct (promise st) as [s0|] eqn:E.
    - intros [= <-]. by apply Hpr.
    - intros [= <-]. cbn. split; [done|]. exact Hout. }
  destruct e as [|due]; cbn [run_event fst snd].
  - (* an interval tick *)
    assert (Hnow : start <= tick (S k) <= deadline).
    { split; [unfold CellRun.tick, pollInterval; lia|].
      revert Hnext. unfold next_event.
      destruct (timer st) as [c|] eqn:Etm; [|destruct (timeoutTimer st); done].
      destruct (timeoutTimer st) as [due|] eqn:Eto.
      - destruct (timeout_runs_first _ _ _) eqn:Ef; [done|]. intros _.
        apply polls_before in Ef. destruct (Hdue due eq_refl). lia.
      - intros _. rewrite (Hk0 ltac:(done) eq_refl). exact Hd1. }
    unfold NotebookRun.Inv_times.
    destruct (output_cases output (tick (S k))) as [Ho | [(o & Ho & Ht) | (o & Ho & Ht)]].
    + rewrite (checkIfDone_none_later output timeout _ _ Ho) by lia.
      cbn -[loading_widget].
      split_and!; try done. intros s Hs.
      by apply (Hkeep (count_query st) None (tick (S k))).
    + rewrite (checkIfDone_placeholder output timeout _ _ _ Ho Ht).
      unfold startTimeout. cbn -[loading_widget].
      destruct (timeoutTimer st) as [due|] eqn:Eto; cbn -[loading_widget].
      * rewrite Eto. split_and!; try done.
      * split_and!; try done.
        intros due [= <-]. revert Hnext. unfold next_event. rewrite Eto.
        destruct (timer st) as [c|] eqn:Etm; [|done]. intros _.
        rewrite (Hk0 ltac:(done) eq_refl).
        unfold NotebookRun.deadline, CellRun.tick, delay, pollInterval. lia.
    + rewrite (checkIfDone_finished output timeout _ _ _ Ho Ht).
      cbn -[loading_widget].
      split_and!; try done. intros s Hs.
      apply (Hkeep (count_query st) (Some o) (tick (S k))); [done|done| |done].
      intros o' [= <-]. done.
  - (* the timeout *)
    assert (Hto : timeoutTimer st = Some due).
    { revert Hnext. unfold next_event.
      destruct (timer st), (timeoutTimer st) as [d|]; try done.
      - destruct (timeout_runs_first _ _ _); congruence.
      - congruence. }
    unfold NotebookRun.Inv_times. cbn -[loading_widget]. split_and!; try done.
    intros s Hs. eapply (Hkeep _ None due); [|by apply Hdue|done|exact Hs]. done.
Qed.

Lemma reachable_Inv_times (k : nat) (st : poll_state) :
  reachable k st -> Inv_times k st.
Proof.
  induction 1 as [|k st e Hr IH Hnext]; [apply Inv_times_executor|].
  apply Inv_times_step; [by apply (reachable_Inv output timeout timeout_first start)|done..].
Qed.

(** X3: The code branch always settles, no later than one poll interval plus
    the timeout after it started; by then both timers are gone; the node it
    settles with, if any, is the one the query found at that very time, and
    is never the loading-widget placeholder. *)
Theorem code_cell_settles_in_time :
  exists st' s,
    (forall fuel, (enough_fuel timeout <= fuel)%nat ->
       code_cell_run output timeout timeout_first start fuel = Some st')
    /\ promise st' = Some s
    /\ timer st' = None /\ timeoutTimer st' = None
    /\ start <= at_time s <= start + pollInterval + Z.max 0 timeout
    /\ forall o, value s = Some o ->
         output (at_time s) = Some o /\ textContent o <> loading_widget.
Proof.
  destruct (code_cell_run_total output timeout timeout_first start)
    as (st' & Hrun & Htm & Hto & Hpr & k & Hr).
  destruct (promise st') as [s|] eqn:E; [|done].
  destruct (reachable_Inv_times k st' Hr) as (Hs & _).
  destruct (Hs s E) as [Htime Hval].
  exists st', s. split_and!; try done; apply Htime.
Qed.

Lemma checkIfDone_effect (now : Z) (st : poll_state) :
  queries (checkIfDone now st) = S (queries st)
  /\ forall s, promise st = Some s -> promise (checkIfDone now st) = Some s.
Proof.
  destruct (output_cases output now) as [Ho | [(o & Ho & Ht) | (o & Ho & Ht)]].
  - destruct (numTries st) as [|n] eqn:En.
    + rewrite (checkIfDone_none_first output timeout _ _ Ho En). done.
    + rewrite (checkIfDone_none_later output timeout _ _ Ho) by lia.
      split; [done|]. intros s Hs. cbn. unfold resolve. cbn. by rewrite Hs.
  - rewrite (checkIfDone_placeholder output timeout _ _ _ Ho Ht).
    unfold startTimeout. cbn. destruct (timeoutTimer st); done.
  - rewrite (checkIfDone_finished output timeout _ _ _ Ho Ht).
    split; [done|]. intros s Hs. cbn. unfold resolve. cbn. by rewrite Hs.
Qed.

(** Once resolved, the promise keeps its value through every later timer
    callback, and the queries only add up. *)
Lemma event_loop_keeps_promise (fuel : nat) :
  forall (k : nat) (st st' : poll_state) (s : settled),
  event_loop output timeout timeout_first start fuel k st = Some st' ->
  promise st = Some s ->
  promise st' = Some s /\ (queries st <= queries st')%nat.
Proof.
  induction fuel as [|fuel IH]; intros k st st' s H Hs; [done|].
  cbn [event_loop] in H. destruct (next_event timeout_first start k st) as [e|].
  - destruct e as [|due]; cbn [run_event] in H.
    + destruct (checkIfDone_effect (tick (S k)) st) as [Hq Hp].
      destruct (IH _ _ _ s H (Hp s Hs)) as [H1 H2]. split; [done|lia].
    + destruct (IH _ _ _ s H) as [H1 H2]; [|done].
      cbn. unfold resolve. cbn. by rewrite Hs.
  - injection H as <-. split; [done|lia].
Qed.

(** X4: A finished output found by the first, synchronous check resolves the
    call at once with that node; the interval is created all the same, so
    at least one more query is made although the call has resolved, and
    the result stays what it was. *)
Theorem first_check_resolves_at_once (o : Node) :
  output start = Some o -> textContent o <> loading_widget ->
  promise (executor output timeout start) = Some (mkSettled (Some o) start 1)
  /\ timer (executor output timeout start) = Some start
  /\ next_event timeout_first start 0 (executor output timeout start) = Some Tick
  /\ forall st' fuel,
       code_cell_run output timeout timeout_first start fuel = Some st' ->
       promise st' = Some (mkSettled (Some o) start 1)
       /\ (2 <= queries st')%nat.
Proof.
  intros Ho Ht.
  assert (Hex : executor output timeout start
                = mkState 1 (Some start) None (Some (mkSettled (Some o) start 1))
                          1 [] [] [(start, Some o)]).
  { unfold executor. rewrite (checkIfDone_finished output timeout _ _ _ Ho Ht). done. }
  rewrite Hex. split_and!; try done.
  intros st' fuel Hrun. unfold code_cell_run in Hrun. rewrite Hex in Hrun.
  destruct fuel as [|fuel]; [done|]. cbn [event_loop] in Hrun.
  cbn [next_event timer timeoutTimer run_event] in Hrun.
  match type of Hrun with
  | event_loop _ _ _ _ _ _ (CellRun.checkIfDone _ _ ?now ?st) = _ =>
      destruct (checkIfDone_effect now st) as [Hq Hp]
  end.
  destruct (event_loop_keeps_promise _ _ _ _ _ Hrun (Hp _ eq_refl)) as [H1 H2].
  split; [done|]. rewrite Hq in H2. cbn in H2. lia.
Qed.

End Times.

Lemma code_cell_settles_in_time_witness :
  exists st' s,
    code_cell_run output_then_placeholder 2000 true 0 (enough_fuel 2000) = Some st'
    /\ promise st' = Some s /\ 0 <= at_time s <= 2200.
Proof.
  destruct (code_cell_settles_in_time output_then_placeholder 2000 true 0)
    as (st' & s & Hrun & Hpr & _ & _ & Htime & _).
  exists st', s. split_and!; [apply Hrun; lia|done|lia|].
  change (0 + pollInterval + Z.max 0 2000) with 2200 in Htime. lia.
Defined.

Lemma first_check_resolves_at_once_witness :
  promise (executor output_then_placeholder 2000 0)
  = Some (mkSettled (Some finished_node) 0 1)
  /\ timer (executor output_then_placeholder 2000 0) = Some 0.
Proof.
  destruct (first_check_resolves_at_once output_then_placeholder 2000 true 0
              finished_node) as (H1 & H2 & _).
  - reflexivity.
  - discriminate.
  - split; [exact H1 | exact H2].
Defined.

End CodeCellMore.

(** ** [waitForCellRun] and [waitForMarkdonCellRendered] as a whole *)
Section CellRunMore.
Import Js NotebookModel Waiter CellRun NotebookRun.

Lemma forallb_rev (f : code_unit -> bool) (s : jsstring) :
  forallb f (rev s) = forallb f s.
Proof.
  induction s as [|c s IH]; [reflexivity|]. cbn.
  rewrite forallb_app, IH. cbn. rewrite andb_true_r. apply andb_comm.
Qed.

Lemma trimStart_nonblank (s : jsstring) :
  forallb isWhiteSpace s = false ->
  trimStart s <> [] /\ forallb isWhiteSpace (trimStart s) = false.
Proof.
  induction s as [|c s IH]; [discriminate|]. cbn [trimStart forallb].
  destruct (isWhiteSpace c) eqn:E; cbn.
  - exact IH.
  - intros _. split; [done|]. cbn. by rewrite E.
Qed.

(** [trim] leaves nothing exactly of the strings made of whitespace. *)
Lemma trim_empty_iff (s : jsstring) :
  trim s = [] <-> forallb isWhiteSpace s = true.
Proof.
  split; [|apply trim_blank].
  intros H. destruct (forallb isWhiteSpace s) eqn:E; [done|]. exfalso.
  destruct (trimStart_nonblank s E) as [_ H1].
  rewrite <- forallb_rev in H1.
  destruct (trimStart_nonblank _ H1) as [H2 _].
  unfold trim, trimEnd in H. apply (f_equal (@rev _)) in H.
  rewrite rev_involutive in H. done.
Qed.

Lemma rendered_loop_sound (rendered : Z -> bool) (fuel : nat) :
  forall (now t : Z),
  rendered_loop rendered now fuel = Some t ->
  rendered t = true
  /\ exists n, (1 <= n <= fuel)%nat /\ t = tick_time now n
       /\ forall j, (1 <= j < n)%nat -> rendered (tick_time now j) = false.
Proof.
  induction fuel as [|fuel IH]; intros now t H; [discriminate|].
  cbn [rendered_loop] in H. destruct (rendered (now + pollInterval)) eqn:E.
  - injection H as <-. split; [done|]. exists 1%nat.
    unfold tick_time. split_and!; [lia|lia|lia|]. intros j Hj. lia.
  - destruct (IH _ _ H) as (Hr & n & Hn & Ht & Hbefore). split; [done|].
    exists (S n). split_and!; [lia|lia|by rewrite Ht, tick_time_succ|].
    intros j Hj. destruct (decide (j = 1%nat)) as [->|Hj1].
    + unfold tick_time. replace (now + pollInterval * Z.of_nat 1)
        with (now + pollInterval) by lia. done.
    + destruct j as [|j]; [lia|]. rewrite <- tick_time_succ. apply Hbefore. lia.
Qed.

(** A resolved markdown wait: [cell.ready] has fulfilled and the cell is
    rendered at the tick of resolution, not at an earlier one. *)
Lemma waitForMarkdonCellRendered_sound (cell : Cell) (now : Z) (fuel : nat)
    (t : Z) :
  waitForMarkdonCellRendered cell now fuel = Some t ->
  exists d n, ready_after cell = Some d
    /\ rendered cell t = true
    /\ (1 <= n <= fuel)%nat
    /\ t = now + Z.max 0 d + pollInterval * Z.of_nat n
    /\ forall j, (1 <= j < n)%nat ->
         rendered cell (now + Z.max 0 d + pollInterval * Z.of_nat j) = false.
Proof.
  unfold waitForMarkdonCellRendered. intros H.
  destruct (ready_after cell) as [d|]; [|done].
  destruct (rendered_loop_sound _ _ _ _ H) as (Hr & n & Hn & Ht & Hbefore).
  exists d, n. split_and!; try done; lia.
Qed.

(** X5: [waitForMarkdonCellRendered] resolves only once [cell.ready] has
    fulfilled, at a tick at which the cell reports itself rendered, every
    earlier tick having found it not rendered; and no earlier than one poll
    interval after [cell.ready], even for a cell rendered all along.  If
    [cell.ready] never fulfils it never resolves. *)
Theorem waitForMarkdonCellRendered_spec (cell : Cell) (now : Z) :
  (forall fuel t,
     waitForMarkdonCellRendered cell now fuel = Some t ->
     exists d n, ready_after cell = Some d
       /\ rendered cell t = true
       /\ (1 <= n <= fuel)%nat
       /\ t = now + Z.max 0 d + pollInterval * Z.of_nat n
       /\ forall j, (1 <= j < n)%nat ->
            rendered cell (now + Z.max 0 d + pollInterval * Z.of_nat j) = false)
  /\ (ready_after cell = None ->
      forall fuel, waitForMarkdonCellRendered cell now fuel = None).
Proof.
  split.
  - intros fuel t H. exact (waitForMarkdonCellRendered_sound cell now fuel t H).
  - unfold waitForMarkdonCellRendered. intros ->. done.
Qed.

Lemma waitForMarkdonCellRendered_spec_witness :
  rendered markdown_cell 1050 = true.
Proof.
  destruct (waitForMarkdonCellRendered_spec markdown_cell 0) as [H _].
  destruct (H 10%nat 1050) as (d & n & _ & Hr & _); [reflexivity|exact Hr].
Defined.

Section Dom.
Variable querySelector : root -> jsstring -> Z -> option Node.
Variable evaluate : root -> jsstring -> Z -> option Node.
Variable timeout_first : bool.

Local Abbreviation waitForCellRun :=
  (waitForCellRun querySelector evaluate timeout_first).

(** A blank source makes [waitForCellRun] return at once. *)
Lemma blank_returns_at_once (cell : Cell) (timeout : option Z) (now : Z)
    (fuel : nat) :
  forallb isWhiteSpace (model_text cell) = true ->
  waitForCellRun cell timeout now fuel = Some (mkSettled None now 0).
Proof.
  intros H. unfold CellRun.waitForCellRun. by rewrite (trim_blank _ H).
Qed.

(** The phases a resolved call went through, for a source that is not
    blank. *)
Lemma waitForCellRun_phases (cell : Cell) (timeout : option Z) (now : Z)
    (fuel : nat) (s : settled) :
  forallb isWhiteSpace (model_text cell) = false ->
  waitForCellRun cell timeout now fuel = Some s ->
  exists s1 s2,
    waitForXPath evaluate (prompt_xpath emptyPrompt) (Some (node cell))
      hidden_true now fuel = Some s1
    /\ waitForXPath evaluate (prompt_xpath runningPrompt) (Some (node cell))
         hidden_true (at_time s1) fuel = Some s2
    /\ match model_type cell with
       | markdown =>
           exists t, waitForMarkdonCellRendered cell (at_time s2) fuel = Some t
             /\ s = mkSettled None t (dom_queries s1 + dom_queries s2)
       | raw => s = mkSettled None (at_time s2) (dom_queries s1 + dom_queries s2)
       | code =>
           exists st s',
             code_cell_run (querySelector (Subtree (node cell)) output_selector)
               (match timeout with Some t => t | None => 2000 end)
               timeout_first (at_time s2) fuel = Some st
             /\ promise st = Some s'
             /\ s = add_queries (dom_queries s1 + dom_queries s2) s'
       end.
Proof.
  intros Hsrc. unfold CellRun.waitForCellRun.
  destruct (trim (model_text cell)) eqn:Etrim.
  { apply trim_empty_iff in Etrim. congruence. }
  cbn [truthy negb].
  destruct (waitForXPath evaluate (prompt_xpath emptyPrompt) _ _ _ _)
    as [s1|] eqn:E1; [|done].
  destruct (waitForXPath evaluate (prompt_xpath runningPrompt) _ _ _ _)
    as [s2|] eqn:E2; [|done].
  intros H. exists s1, s2. split_and!; try done.
  destruct (model_type cell).
  - destruct (code_cell_run _ _ _ _ _) as [st|] eqn:E3; [|done].
    destruct (promise st) as [s'|] eqn:E; [|done]. injection H as <-. eauto.
  - destruct (waitForMarkdonCellRendered _ _ _) as [t|] eqn:E3; [|done].
    injection H as <-. eauto.
  - by injection H as <-.
Qed.

(** A resolved code branch is in a state the executor goes through. *)
Lemma code_cell_run_times (output : Z -> option Node) (timeout start : Z)
    (fuel : nat) (st : poll_state) (s : settled) :
  code_cell_run output timeout timeout_first start fuel = Some st ->
  promise st = Some s ->
  start <= at_time s
  /\ forall o, value s = Some o ->
       output (at_time s) = Some o /\ textContent o <> loading_widget.
Proof.
  intros Hrun Hs. unfold code_cell_run in Hrun.
  destruct (event_loop_reachable output timeout timeout_first start fuel 0 _ st
              (reach_executor _ _ _ _) Hrun) as (k & Hr & _).
  destruct (reachable_Inv_times output timeout timeout_first start k st Hr) as (H & _).
  destruct (H s Hs) as [Ht Hv]. split; [lia|done].
Qed.

(** A resolved call on a source that is not blank has gone through the
    two prompt waits, one after the other, and resolved no earlier than the
    second of them. *)
Lemma waitForCellRun_after_prompts (cell : Cell) (timeout : option Z)
    (now : Z) (fuel : nat) (s : settled) :
  forallb isWhiteSpace (model_text cell) = false ->
  waitForCellRun cell timeout now fuel = Some s ->
  exists s1 s2,
    waitForXPath evaluate (prompt_xpath emptyPrompt) (Some (node cell))
      hidden_true now fuel = Some s1
    /\ waitForXPath evaluate (prompt_xpath runningPrompt) (Some (node cell))
         hidden_true (at_time s1) fuel = Some s2
    /\ at_time s2 <= at_time s
    /\ (dom_queries s1 + dom_queries s2 <= dom_queries s)%nat.
Proof.
  intros Hsrc H.
  destruct (waitForCellRun_phases cell timeout now fuel s Hsrc H)
    as (s1 & s2 & H1 & H2 & Hrest).
  exists s1, s2. split_and!; [done|done|..];
    destruct (model_type cell).
  - destruct Hrest as (st & s' & Hrun & Hpr & ->).
    destruct (code_cell_run_times _ _ _ _ _ _ Hrun Hpr) as [Ht _]. done.
  - destruct Hrest as (t & Hmd & ->). cbn.
    destruct (waitForMarkdonCellRendered_sound _ _ _ _ Hmd)
      as (d & n & _ & _ & _ & -> & _).
    unfold pollInterval. lia.
  - subst s. cbn. lia.
  - destruct Hrest as (st & s' & Hrun & Hpr & ->). cbn. lia.
  - destruct Hrest as (t & Hmd & ->). cbn. lia.
  - subst s. cbn. lia.
Qed.

(** X6: For a source with a character that is not whitespace, [waitForCellRun]
    resolves only after the empty prompt and then the running prompt have
    each been found absent by a poll, in that order, hence no earlier than
    two poll intervals after the call and after two DOM queries at least. *)
Theorem waitForCellRun_waits_for_prompts (cell : Cell) (timeout : option Z)
    (now : Z) (fuel : nat) (s : settled) :
  forallb isWhiteSpace (model_text cell) = false ->
  waitForCellRun cell timeout now fuel = Some s ->
  exists t1 t2,
    now + pollInterval <= t1 /\ t1 + pollInterval <= t2 /\ t2 <= at_time s
    /\ evaluate (Subtree (node cell)) (prompt_xpath emptyPrompt) t1 = None
    /\ evaluate (Subtree (node cell)) (prompt_xpath runningPrompt) t2 = None
    /\ (2 <= dom_queries s)%nat.
Proof.
  intros Hsrc H.
  destruct (waitForCellRun_after_prompts cell timeout now fuel s Hsrc H)
    as (s1 & s2 & H1 & H2 & Hs).
  pose proof (interval_loop_hidden_sound _ _ _ _ _ H1) as (_ & Hf1 & _).
  pose proof (interval_loop_hidden_sound _ _ _ _ _ H2) as (_ & Hf2 & _).
  destruct (interval_loop_ticks _ _ _ _ _ _ H1) as (n1 & Hn1 & Ht1 & Hq1).
  destruct (interval_loop_ticks _ _ _ _ _ _ H2) as (n2 & Hn2 & Ht2 & Hq2).
  exists (at_time s1), (at_time s2).
  unfold tick_time, pollInterval in *. cbn in Hq1, Hq2.
  split_and!; try done; lia.
Qed.

(** X7: [waitForCellRun] resolves with a node only on a code cell, and then
    with the node the output query finds at that very time, never with
    the loading-widget placeholder; markdown and raw cells, and blank
    sources, always give nothing. *)
Theorem waitForCellRun_value (cell : Cell) (timeout : option Z)
    (now : Z) (fuel : nat) (s : settled) (o : Node) :
  waitForCellRun cell timeout now fuel = Some s ->
  value s = Some o ->
  model_type cell = code
  /\ forallb isWhiteSpace (model_text cell) = false
  /\ textContent o <> loading_widget
  /\ querySelector (Subtree (node cell)) output_selector (at_time s) = Some o.
Proof.
  intros H Hv.
  destruct (forallb isWhiteSpace (model_text cell)) eqn:Hsrc.
  { rewrite (blank_returns_at_once _ _ _ _ Hsrc) in H.
    injection H as <-. done. }
  destruct (waitForCellRun_phases cell timeout now fuel s Hsrc H)
    as (s1 & s2 & _ & _ & Hrest).
  destruct (model_type cell).
  - destruct Hrest as (st & s' & Hrun & Hpr & ->).
    destruct (code_cell_run_times _ _ _ _ _ _ Hrun Hpr) as [_ Hval].
    destruct (Hval o Hv) as [Hq Ht]. done.
  - destruct Hrest as (t & _ & ->). done.
  - subst s. done.
Qed.

(** X8: A raw cell with a source resolves with nothing at the very tick at
    which the running prompt is found absent; a markdown cell resolves
    with nothing at a time at which it reports itself rendered. *)
Theorem waitForCellRun_raw_markdown (cell : Cell) (timeout : option Z)
    (now : Z) (fuel : nat) (s : settled) :
  forallb isWhiteSpace (model_text cell) = false ->
  model_type cell <> code ->
  waitForCellRun cell timeout now fuel = Some s ->
  value s = None
  /\ (model_type cell = raw ->
      evaluate (Subtree (node cell)) (prompt_xpath runningPrompt) (at_time s) = None)
  /\ (model_type cell = markdown ->
      rendered cell (at_time s) = true /\ ready_after cell <> None).
Proof.
  intros Hsrc Hty H.
  destruct (waitForCellRun_phases cell timeout now fuel s Hsrc H)
    as (s1 & s2 & _ & H2 & Hrest).
  pose proof (interval_loop_hidden_sound _ _ _ _ _ H2) as (_ & Hf2 & _).
  destruct (model_type cell); [done| |].
  - destruct Hrest as (t & Hmd & ->). cbn. split_and!; [done|done|].
    intros _. destruct (waitForMarkdonCellRendered_sound _ _ _ _ Hmd)
      as (d & n & Hd & Hr & _). split; [done|]. by rewrite Hd.
  - subst s. cbn. split_and!; done.
Qed.

End Dom.

Lemma waitForCellRun_waits_for_prompts_witness :
  exists t1 t2, 0 + pollInterval <= t1 /\ t1 + pollInterval <= t2 /\ t2 <= 2800.
Proof.
  destruct (waitForCellRun_waits_for_prompts sample_querySelector sample_evaluate
              true sample_cell None 0 20 (mkSettled None 2800 14))
    as (t1 & t2 & H1 & H2 & H3 & _).
  - reflexivity.
  - vm_compute. reflexivity.
  - exists t1, t2. auto.
Defined.

Lemma waitForCellRun_value_witness :
  model_type sample_cell = code
  /\ textContent finished_node <> loading_widget.
Proof.
  destruct (waitForCellRun_value finished_querySelector sample_evaluate true
              sample_cell None 0 20 (mkSettled (Some finished_node) 800 5)
              finished_node) as (H1 & _ & H2 & _).
  - vm_compute. reflexivity.
  - reflexivity.
  - split; [exact H1 | exact H2].
Defined.

Lemma waitForCellRun_raw_markdown_witness :
  value (mkSettled None 800 4) = None.
Proof.
  destruct (waitForCellRun_raw_markdown sample_querySelector sample_evaluate true
              raw_cell None 0 20 (mkSettled None 800 4)) as [H _].
  - reflexivity.
  - discriminate.
  - vm_compute. reflexivity.
  - exact H.
Defined.

(** *** [waitForNotebookRun] *)

Section NotebookRunFacts.
Variable querySelector : root -> jsstring -> Z -> option Node.
Variable evaluate : root -> jsstring -> Z -> option Node.
Variable timeout_first : bool.

Local Abbreviation waitForCellRun :=
  (waitForCellRun querySelector evaluate timeout_first).
Local Abbreviation waitForNotebookRun :=
  (waitForNotebookRun querySelector evaluate timeout_first).

Lemma waitForCellRun_not_before (cell : Cell) (timeout : option Z) (now : Z)
    (fuel : nat) (s : settled) :
  waitForCellRun cell timeout now fuel = Some s -> now <= at_time s.
Proof.
  intros H. destruct (forallb isWhiteSpace (model_text cell)) eqn:Hsrc.
  - rewrite (blank_returns_at_once querySelector evaluate timeout_first
               _ _ _ _ Hsrc) in H.
    injection H as <-. cbn. lia.
  - destruct (waitForCellRun_after_prompts querySelector evaluate timeout_first
                _ _ _ _ _ Hsrc H) as (s1 & s2 & H1 & H2 & Hs & _).
    destruct (interval_loop_ticks _ _ _ _ _ _ H1) as (n1 & _ & Ht1 & _).
    destruct (interval_loop_ticks _ _ _ _ _ _ H2) as (n2 & _ & Ht2 & _).
    unfold tick_time, pollInterval in *. lia.
Qed.

Lemma promise_all_spec (now : Z) (results : list (option settled)) :
  (forall s, In (Some s) results -> now <= at_time s) ->
  match promise_all now results with
  | Some t =>
      now <= t
      /\ (forall r, In r results -> exists s, r = Some s /\ at_time s <= t)
      /\ (results <> [] -> exists s, In (Some s) results /\ at_time s = t)
  | None => In None results
  end.
Proof.
  induction results as [|r rest IH]; intros Hnow; [cbn; split_and!; [lia|done|done]|].
  cbn [promise_all]. destruct r as [s|]; [|by left].
  specialize (IH (fun s' Hs' => Hnow s' (or_intror Hs'))).
  pose proof (Hnow s (or_introl eq_refl)) as Hs.
  destruct (promise_all now rest) as [t|] eqn:E; [|by right].
  destruct IH as (Ht & Hall & Hmax). split_and!; [lia| |].
  - intros r [<-|Hr]; [exists s; split; [done|lia]|].
    destruct (Hall r Hr) as (s' & -> & Hle). exists s'. split; [done|lia].
  - intros _. destruct (Z.max_spec (at_time s) t) as [[Hlt ->]|[Hge ->]].
    + destruct rest as [|r' rest']; [injection E as <-; lia|].
      destruct Hmax as (s' & Hin & Heq); [done|]. exists s'. split; [by right|done].
    + exists s. split; [by left|done].
Qed.

(** X9: on the widgets the host has, [waitForNotebookRun] logs nothing
    and never rejects; it resolves at once on an empty notebook, and on a
    notebook whose sources are all blank; it does resolve as soon as every
    cell's [waitForCellRun], all started at the time of the call with the
    default timeout, has resolved, and then exactly when the last of them
    has; and it stays pending as long as one of them does.  When the host
    has no widgets it logs the problem and rejects at once. *)
Theorem waitForNotebookRun_spec (widgets : list Cell) (now : Z) (fuel : nat) :
  let wait := waitForNotebookRun (Some widgets) now fuel in
  wait.1 = []
  /\ (forall t, wait.2 <> Some (RejectedAt t))
  /\ (Forall (fun cell => forallb isWhiteSpace (model_text cell) = true) widgets ->
      wait.2 = Some (ResolvedAt now))
  /\ ((forall cell, In cell widgets ->
         waitForCellRun cell None now fuel <> None) ->
      exists t, wait.2 = Some (ResolvedAt t))
  /\ (forall t, wait.2 = Some (ResolvedAt t) ->
        now <= t
        /\ (forall cell, In cell widgets ->
              exists s, waitForCellRun cell None now fuel = Some s
                        /\ at_time s <= t)
        /\ (widgets <> [] ->
            exists cell s, In cell widgets
              /\ waitForCellRun cell None now fuel = Some s /\ at_time s = t))
  /\ (forall cell, In cell widgets ->
        waitForCellRun cell None now fuel = None -> wait.2 = None)
  /\ waitForNotebookRun None now fuel = ([cell_problem], Some (RejectedAt now)).
Proof.
  set (results := map (fun cell => waitForCellRun cell None now fuel) widgets).
  assert (Hnow : forall s, In (Some s) results -> now <= at_time s).
  { intros s Hs. apply in_map_iff in Hs as (cell & Hc & _).
    by apply (waitForCellRun_not_before cell None now fuel). }
  pose proof (promise_all_spec now results Hnow) as Hall.
  assert (Hrun : widgets <> [] ->
            waitForNotebookRun (Some widgets) now fuel
            = ([], ResolvedAt <$> promise_all now results)).
  { intros Hne. unfold NotebookRun.waitForNotebookRun.
    destruct widgets; [done|reflexivity]. }
  assert (Hempty : waitForNotebookRun (Some []) now fuel
                   = ([], Some (ResolvedAt now))) by reflexivity.
  cbn zeta. split_and!.
  - destruct (decide (widgets = [])) as [->|Hne]; [done|by rewrite (Hrun Hne)].
  - intros t. destruct (decide (widgets = [])) as [->|Hne]; [done|].
    rewrite (Hrun Hne). cbn. by destruct (promise_all now results).
  - intros Hblank. destruct (decide (widgets = [])) as [->|Hne]; [reflexivity|].
    rewrite (Hrun Hne). cbn.
    assert (Hres : forall r, In r results -> r = Some (mkSettled None now 0)).
    { intros r Hr. apply in_map_iff in Hr as (cell & <- & Hc).
      rewrite Forall_forall in Hblank.
      apply (blank_returns_at_once querySelector evaluate timeout_first),
        Hblank. by apply list_elem_of_In. }
    destruct (promise_all now results) as [t|].
    + destruct Hall as (_ & _ & Hmax).
      destruct Hmax as (s & Hs & <-); [by destruct widgets|].
      apply Hres in Hs. by injection Hs as ->.
    + apply Hres in Hall. done.
  - intros Hevery. destruct (decide (widgets = [])) as [->|Hne]; [by exists now|].
    rewrite (Hrun Hne). cbn.
    destruct (promise_all now results) as [t|]; [by exists t|].
    apply in_map_iff in Hall as (cell & Hpending & Hc).
    by destruct (Hevery cell Hc).
  - intros t Ht. destruct (decide (widgets = [])) as [->|Hne].
    { injection Ht as <-. split_and!; [lia|intros ? []|done]. }
    rewrite (Hrun Hne) in Ht. cbn in Ht.
    destruct (promise_all now results) as [t'|]; [|done].
    injection Ht as ->.
    destruct Hall as (Hle & Hevery & Hmax). split_and!; [done| |].
    + intros cell Hc. apply (Hevery (waitForCellRun cell None now fuel)).
      apply in_map_iff. eauto.
    + intros _. destruct Hmax as (s & Hs & Heq); [by destruct widgets|].
      apply in_map_iff in Hs as (cell & Hc & Hin). eauto.
  - intros cell Hc Hpending.
    assert (Hne : widgets <> []) by (intros ->; destruct Hc).
    rewrite (Hrun Hne). cbn. destruct (promise_all now results) as [t|]; [|done].
    destruct Hall as (_ & Hevery & _).
    destruct (Hevery (waitForCellRun cell None now fuel)) as (s & Hs & _);
      [apply in_map_iff; eauto|congruence].
  - reflexivity.
Qed.

End NotebookRunFacts.

Lemma waitForNotebookRun_spec_witness :
  exists t,
    (waitForNotebookRun sample_querySelector sample_evaluate true
       (Some [blank_cell; raw_cell; sample_cell]) 0 20).2 = Some (ResolvedAt t).
Proof.
  destruct (waitForNotebookRun_spec sample_querySelector sample_evaluate true
              [blank_cell; raw_cell; sample_cell] 0 20) as (_ & _ & _ & H & _).
  apply H. intros cell Hc.
  destruct Hc as [<-|[<-|[<-|[]]]]; vm_compute; discriminate.
Defined.

(** A blank cell, a raw cell and a stalled widget waited for together: the
    notebook is done when the widget's timeout has fired. *)
Example waitForNotebookRun_sample :
  waitForNotebookRun sample_querySelector sample_evaluate true
    (Some [blank_cell; raw_cell; sample_cell]) 0 20
  = ([], Some (ResolvedAt 2800)).
Proof. vm_compute. reflexivity. Qed.

End CellRunMore.

(** ** The plugin resolver and [waitForLaunch] *)
Section PluginMore.
Import Plugin Launch.

(** X10: [getPlugin] asks the host to activate a plugin exactly when the
    registry knows the id, the private map yields a record and that record
    is not activated; it logs exactly when the registry knows the id and the
    map yields no record; and whenever it logs or the id is unknown, the
    promise stays unsettled. *)
Theorem getPlugin_side_effects
    (activatePlugin : JupyterFrontEnd -> string -> activation)
    (app : JupyterFrontEnd) (pluginId : string) :
  let out := getPlugin activatePlugin app pluginId in
  (activation_requested out = true
   <-> hasPlugin app pluginId = true
       /\ exists p, lookup_plugin app pluginId = Some p
                    /\ activated (objects app p) = false)
  /\ (console out <> []
      <-> hasPlugin app pluginId = true /\ lookup_plugin app pluginId = None)
  /\ (console out <> [] \/ hasPlugin app pluginId = false ->
      result out = Unsettled).
Proof.
  cbn zeta. unfold getPlugin.
  destruct (hasPlugin app pluginId); cbn.
  - destruct (lookup_plugin app pluginId) as [p|]; cbn.
    + destruct (activated (objects app p)) eqn:E; cbn.
      * split_and!.
        -- split; [done|]. intros (_ & p' & [= <-] & Hp). congruence.
        -- split; [done|]. intros [_ [=]].
        -- intros [[]|[=]]. done.
      * assert (Hreq : activation_requested
                  match activatePlugin app pluginId with
                  | ActFulfilled _ app' =>
                      mkOutcome (Resolved (service (objects app' p))) true []
                  | _ => mkOutcome Unsettled true []
                  end = true
                /\ console
                  match activatePlugin app pluginId with
                  | ActFulfilled _ app' =>
                      mkOutcome (Resolved (service (objects app' p))) true []
                  | _ => mkOutcome Unsettled true []
                  end = [])
          by (destruct (activatePlugin app pluginId); done).
        destruct Hreq as [-> ->]. split_and!.
        -- split; [eauto|done].
        -- split; [done|]. intros [_ [=]].
        -- intros [[]|[=]]. done.
    + split_and!.
      * split; [done|]. intros (_ & p & [=] & _).
      * done.
      * done.
  - split_and!.
    + split; [done|]. intros [[=] _].
    + split; [done|]. intros [[=] _].
    + done.
Qed.

Section LaunchFacts.
Variable activatePlugin : JupyterFrontEnd -> string -> activation.
Variable PLUGIN_ID_ROUTER : string.
Variable PLUGIN_ID_DOC_MANAGER : string.
Variable closeAll : nat -> bool.

Local Abbreviation waitForLaunch :=
  (waitForLaunch activatePlugin PLUGIN_ID_ROUTER PLUGIN_ID_DOC_MANAGER closeAll).
Local Abbreviation on_routed := (on_routed closeAll).

(** The handler, over a run of navigation events: [closeAll] is called once
    per event with exactly the awaited path, [resolve] is called when one of
    those calls has fulfilled, and nothing is ever undone. *)
Lemma on_routed_fold (path : string) (id : nat) (routed : list string) :
  forall (calls : nat) (done_ : bool),
  let st := fold_left (on_routed path (VObject id)) routed (calls, done_) in
  st.1 = (calls + length (List.filter (fun p => String.eqb p path) routed))%nat
  /\ st.2 = done_ || existsb closeAll (seq calls (st.1 - calls)).
Proof.
  induction routed as [|p routed IH]; intros calls done_.
  - cbn. rewrite Nat.add_0_r, Nat.sub_diag. cbn. by rewrite orb_false_r.
  - assert (Hstep : on_routed path (VObject id) (calls, done_) p
                    = if String.eqb p path
                      then (S calls, done_ || closeAll calls)
                      else (calls, done_)) by reflexivity.
    cbn [fold_left List.filter]. rewrite Hstep. clear Hstep.
    destruct (String.eqb p path) eqn:E; [|exact (IH _ _)].
    destruct (IH (S calls) (done_ || closeAll calls)) as [H1 H2].
    cbn zeta in *. rewrite H2, H1. cbn [length]. split; [lia|].
    set (n := length (List.filter (fun p0 => String.eqb p0 path) routed)).
    replace (S calls + n - S calls)%nat with n by lia.
    replace (S calls + n - calls)%nat with (S n) by lia.
    cbn [seq existsb]. by rewrite orb_assoc.
Qed.

(** [getPlugin] resolves exactly for an obtainable plugin. *)
Lemma getPlugin_resolves_iff (app : JupyterFrontEnd) (pluginId : string) :
  result (getPlugin activatePlugin app pluginId) <> Unsettled
  <-> obtainable activatePlugin app pluginId.
Proof.
  unfold getPlugin, Launch.obtainable.
  destruct (hasPlugin app pluginId); [|cbn; split; [done|by intros [? _]]].
  destruct (lookup_plugin app pluginId) as [p|];
    [|cbn; split; [done|by intros (_ & ? & ? & _)]].
  destruct (activated (objects app p)) eqn:Ea.
  { cbn. split; [|done]. intros _. split; [done|]. exists p. rewrite Ea. eauto. }
  destruct (activatePlugin app pluginId) as [v app'| |] eqn:Eact; cbn.
  - split; [|done]. intros _. split; [done|]. exists p. split; [done|]. eauto.
  - split; [done|]. intros (_ & q & [= <-] & [H|(? & ? & ?)]); congruence.
  - split; [done|]. intros (_ & q & [= <-] & [H|(? & ? & ?)]); congruence.
Qed.

(** X11: [waitForLaunch] awaits the router before it asks for the document
    manager, and connects its handler only when it has both.  When the
    router is not obtainable (the registry does not know its id, the private
    map has no record for it, or its record is inactive and the activation
    does not fulfil), [getPlugin] is called for the router only.  When the
    router is obtainable, [getPlugin] is called for both, in that order.
    A handler is connected only when both are obtainable, the document
    manager in the application as the router's activation left it, and the
    router's service is an object.  As long as no handler is connected,
    [closeAll] is never called and the call never resolves, whatever
    navigation happens. *)
Theorem waitForLaunch_needs_router (path : option string)
    (app : JupyterFrontEnd) (routed : list string) :
  let l := waitForLaunch path app routed in
  (~ obtainable activatePlugin app PLUGIN_ID_ROUTER ->
     requested l = [PLUGIN_ID_ROUTER] /\ connected l = false)
  /\ (obtainable activatePlugin app PLUGIN_ID_ROUTER ->
        requested l = [PLUGIN_ID_ROUTER; PLUGIN_ID_DOC_MANAGER])
  /\ (connected l = true ->
        obtainable activatePlugin app PLUGIN_ID_ROUTER
        /\ obtainable activatePlugin
             (app_after activatePlugin app PLUGIN_ID_ROUTER)
             PLUGIN_ID_DOC_MANAGER
        /\ exists r, result (getPlugin activatePlugin app PLUGIN_ID_ROUTER)
                     = Resolved (VObject r))
  /\ (connected l = false -> resolved l = false /\ closeAll_calls l = 0%nat).
Proof.
  cbn zeta. unfold Launch.waitForLaunch.
  pose proof (getPlugin_resolves_iff app PLUGIN_ID_ROUTER) as Hr.
  pose proof (getPlugin_resolves_iff
                (app_after activatePlugin app PLUGIN_ID_ROUTER)
                PLUGIN_ID_DOC_MANAGER) as Hd.
  destruct (result (getPlugin activatePlugin app PLUGIN_ID_ROUTER))
    as [router|] eqn:Er.
  - assert (Hok : obtainable activatePlugin app PLUGIN_ID_ROUTER)
      by (by apply Hr).
    destruct (result (getPlugin activatePlugin
                        (app_after activatePlugin app PLUGIN_ID_ROUTER)
                        PLUGIN_ID_DOC_MANAGER)) as [docManager|] eqn:Ed.
    + assert (Hok' : obtainable activatePlugin
                       (app_after activatePlugin app PLUGIN_ID_ROUTER)
                       PLUGIN_ID_DOC_MANAGER) by (by apply Hd).
      destruct router as [| |r]; cbn; split_and!; try done; eauto.
    + cbn. split_and!; done.
  - cbn. split_and!; try done. intros Hok. apply Hr in Hok. done.
Qed.

(** X12: Once connected, the handler calls [docManager.closeAll] once for every
    navigation event whose path is exactly the awaited one ('/lab' unless
    given) and for no other event, also after the call has resolved; the
    call resolves exactly when the promise of one of those calls has
    fulfilled, hence never without such an event. *)
Theorem waitForLaunch_routed (path : option string)
    (app : JupyterFrontEnd) (routed : list string) (r d : nat) :
  let awaited := match path with Some p => p | None => "/lab"%string end in
  let matching := List.filter (fun p => String.eqb p awaited) routed in
  result (getPlugin activatePlugin app PLUGIN_ID_ROUTER) = Resolved (VObject r) ->
  result (getPlugin activatePlugin (app_after activatePlugin app PLUGIN_ID_ROUTER)
            PLUGIN_ID_DOC_MANAGER) = Resolved (VObject d) ->
  let l := waitForLaunch path app routed in
  connected l = true
  /\ closeAll_calls l = length matching
  /\ resolved l = existsb closeAll (seq 0 (length matching))
  /\ (matching = [] -> resolved l = false).
Proof.
  intros awaited matching H1 H2. unfold Launch.waitForLaunch.
  rewrite H1, H2. fold awaited.
  destruct (on_routed_fold awaited d routed 0 false) as [Hc Hr].
  cbn zeta in *. cbn [resolved connected closeAll_calls].
  fold matching in Hc. rewrite Hc in Hr. cbn in Hc, Hr.
  rewrite Nat.sub_0_r in Hr.
  split_and!; [done|done|done|].
  intros Hm. rewrite Hr, Hm. done.
Qed.

End LaunchFacts.

Lemma waitForLaunch_needs_router_witness :
  requested
    (waitForLaunch (activate_with VNull) "router" "docmanager" (fun _ => true)
       None app_without_map ["/lab"]) = ["router"%string]
  /\ connected
       (waitForLaunch (activate_with VNull) "router" "docmanager" (fun _ => true)
          None app_without_map ["/lab"]) = false.
Proof.
  apply (waitForLaunch_needs_router (activate_with VNull) "router" "docmanager"
           (fun _ => true) None app_without_map ["/lab"]).
  intros (_ & p & Hp & _). discriminate Hp.
Defined.

Lemma waitForLaunch_routed_witness :
  closeAll_calls
    (waitForLaunch (activate_with VNull) "router" "docmanager" (fun _ => true)
       None app_ready ["/tree"; "/lab"; "/lab"]) = 2%nat.
Proof.
  apply (waitForLaunch_routed (activate_with VNull) "router" "docmanager"
           (fun _ => true) None app_ready ["/tree"; "/lab"; "/lab"] 1 2);
    reflexivity.
Defined.

End PluginMore.

(** ** Replacing and adding cells, composed *)
Section NotebookMore.
Import Js NotebookModel.

(** The cells [setNotebookCell] leaves, in and out of range. *)
Lemma setNotebookCell_cells (nb : Notebook) (i : Z) (cellType : CellType)
    (src : jsstring) :
  cells (setNotebookCell nb i cellType src).2
  = if (i <? 0) || (i >=? numCells nb) then cells nb
    else <[Z.to_nat i := createCell cellType src]> (cells nb).
Proof.
  unfold setNotebookCell.
  destruct ((i <? 0) || (i >=? numCells nb)) eqn:E; [reflexivity|].
  apply orb_false_iff in E as [E1 E2].
  cbn [snd update endCompoundOperation record cells].
  assert (Hi : 0 <= i < numCells (beginCompoundOperation nb)).
  { unfold numCells, beginCompoundOperation in *. cbn.
    destruct (Z.ltb_spec i 0); [done|].
    destruct (Z.geb_spec i (Z.of_nat (length (cells nb)))); [done|lia]. }
  destruct (cells_set_in_range i (createCell cellType src) _ Hi) as (-> & _).
  reflexivity.
Qed.

(** X13: [setNotebookCell] never changes the number of cells, whatever the
    index, so the same indices stay valid from one call to the next: on one
    index the last call wins, and calls on two different indices give the
    same cells in either order. *)
Theorem setNotebookCell_composes (nb : Notebook) (i j : Z)
    (t1 t2 : CellType) (s1 s2 : jsstring) :
  let set1 := (setNotebookCell nb i t1 s1).2 in
  numCells set1 = numCells nb
  /\ cells (setNotebookCell set1 i t2 s2).2
     = cells (setNotebookCell nb i t2 s2).2
  /\ (i <> j ->
      cells (setNotebookCell set1 j t2 s2).2
      = cells (setNotebookCell (setNotebookCell nb j t2 s2).2 i t1 s1).2).
Proof.
  cbn zeta.
  assert (Hlen : forall k t s, numCells (setNotebookCell nb k t s).2 = numCells nb).
  { intros k t s. unfold numCells. rewrite setNotebookCell_cells.
    destruct (_ || _); [done|]. by rewrite length_insert. }
  split_and!; [apply Hlen| |].
  - rewrite !setNotebookCell_cells, Hlen.
    destruct (_ || _); [done|]. apply list_insert_insert_eq.
  - intros Hij. rewrite !setNotebookCell_cells, !Hlen.
    destruct ((i <? 0) || (i >=? numCells nb)) eqn:Ei;
      destruct ((j <? 0) || (j >=? numCells nb)) eqn:Ej; try done.
    apply list_insert_insert_ne.
    apply orb_false_iff in Ei as [Ei _], Ej as [Ej _].
    destruct (Z.ltb_spec i 0), (Z.ltb_spec j 0); try done. lia.
Qed.

Lemma setNotebookCell_composes_witness :
  cells (setNotebookCell (setNotebookCell three_cells 0 raw (lit "x")).2
           2 code (lit "y")).2
  = cells (setNotebookCell (setNotebookCell three_cells 2 code (lit "y")).2
             0 raw (lit "x")).2.
Proof.
  apply (setNotebookCell_composes three_cells 0 2 raw code (lit "x") (lit "y")).
  discriminate.
Defined.

Lemma insert_last (l : list ICellModel) (x y : ICellModel) :
  <[length l := y]> (l ++ [x]) = l ++ [y].
Proof.
  rewrite insert_app_r_alt by lia. by rewrite Nat.sub_diag.
Qed.

(** X14: [addNotebookCell] puts the new cell at the last index of what the
    host's insertion left, and nowhere else.  When the host inserted its
    cell at the end, that cell is the one replaced and every former cell is
    kept.  When the host inserted its cell at an earlier position, the
    inserted cell stays as the host made it, and it is the former last cell
    of the notebook that is replaced, its content being lost. *)
Theorem addNotebookCell_overwrites_last (insertBelow : Notebook -> Notebook)
    (nb : Notebook) (cellType : CellType) (src : jsstring)
    (before after : list ICellModel) (inserted : ICellModel) :
  cells nb = before ++ after ->
  cells (insertBelow nb) = before ++ inserted :: after ->
  let new := createCell cellType src in
  let cells' := cells (addNotebookCell insertBelow nb cellType src).2 in
  (after = [] -> cells' = before ++ [new])
  /\ (forall rest former_last, after = rest ++ [former_last] ->
        cells' = before ++ inserted :: rest ++ [new]).
Proof.
  intros Hnb Hins new cells'. subst cells'.
  assert (Hcells : cells (addNotebookCell insertBelow nb cellType src).2
            = <[length (before ++ after) := new]> (before ++ inserted :: after)).
  { unfold addNotebookCell. cbn [snd update endCompoundOperation record cells].
    set (nb1 := beginCompoundOperation (insertBelow nb)).
    assert (Hn : 0 <= numCells (insertBelow nb) - 1 < numCells nb1).
    { unfold numCells, nb1. cbn. rewrite Hins, length_app. cbn. lia. }
    destruct (cells_set_in_range _ new nb1 Hn) as (Hc & _).
    etransitivity; [exact Hc|].
    change (cells nb1) with (cells (insertBelow nb)).
    unfold numCells. rewrite Hins. f_equal. rewrite !length_app.
    cbn [length]. lia. }
  rewrite Hcells. split.
  - intros ->. rewrite app_nil_r. apply insert_last.
  - intros rest former_last ->.
    replace (before ++ inserted :: rest ++ [former_last])
      with ((before ++ inserted :: rest) ++ [former_last])
      by (by rewrite <- app_assoc).
    replace (length (before ++ rest ++ [former_last]))
      with (length (before ++ inserted :: rest))
      by (rewrite !length_app; cbn [length]; rewrite ?length_app; cbn [length]; lia).
    rewrite insert_last. by rewrite <- app_assoc.
Qed.

Lemma addNotebookCell_overwrites_last_witness :
  cells (addNotebookCell NotebookActions_insertBelow three_cells markdown (lit "x")).2
  = [mkCell code (lit "a")] ++ mkCell code [] :: [mkCell markdown (lit "b")]
    ++ [createCell markdown (lit "x")].
Proof.
  destruct (addNotebookCell_overwrites_last NotebookActions_insertBelow three_cells
              markdown (lit "x") [mkCell code (lit "a")]
              [mkCell markdown (lit "b"); mkCell raw (lit "c")] (mkCell code [])
              eq_refl eq_refl) as [_ H].
  apply (H [mkCell markdown (lit "b")] (mkCell raw (lit "c"))).
  reflexivity.
Defined.

End NotebookMore.

(** ** The cell-by-cell run, further *)
Section OrchestratorMore.
Import Waiter Orchestrator RunTrace.
Import PrimFloat.

(** *** What a run does and does not do, whatever the promises do *)

(** X16: Whatever the promises do, the run of a cell is started only once, for
    every earlier cell, [NotebookActions.run] has fulfilled,
    [waitForCellRun] has resolved and [onAfterCellRun], if supplied, has
    fulfilled: a run or a callback that fails or hangs stops the whole
    sequence there. *)
Theorem cells_run_in_sequence (callback : option INotebookRunCallback)
    (widgets : list cell_view) (j : nat) :
  In (RunStart j) (runActiveNotebookCellByCell callback (Some widgets)).2 ->
  (j < length widgets)%nat
  /\ forall i, (i < j)%nat ->
       exists cell, widgets !! i = Some cell
         /\ run_outcome cell = Fulfilled tt
         /\ (exists o, wait_outcome cell = Fulfilled o)
         /\ forall f, member callback onAfterCellRun = Some f ->
              f i = Fulfilled tt.
Proof.
  intros H. destruct (run_events _ _ _ H) as [[=]|(i & c & Hi & Hc & Hin & Hprev)].
  destruct (iteration_events callback i c) as (_ & Hrun & _).
  apply Hrun in Hin as ->. split; [done|].
  intros i' Hi'. destruct (Hprev i' Hi') as (c' & Hc' & Hret).
  destruct (iteration_events callback i' c') as (Hok & _).
  exists c'. split; [done|]. by apply Hok.
Qed.

Lemma cells_run_in_sequence_witness :
  run_outcome (far_cell 0 220) = Fulfilled tt.
Proof.
  destruct (cells_run_in_sequence (Some all_callbacks)
              [far_cell 0 220; far_cell 220 220] 1) as [_ H].
  - vm_compute. tauto.
  - destruct (H 0%nat) as (cell & Hc & Hrun & _); [lia|].
    injection Hc as <-. exact Hrun.
Defined.

(** A cell whose run hangs is the last one started. *)
Example run_stops_at_stuck_cell :
  runActiveNotebookCellByCell (Some all_callbacks)
    (Some [near_cell; stuck_cell; near_cell])
  = (NeverReturns,
     [DeselectAll; SetActiveCellIndex 0; Select 0; RunStart 0; RunDone 0;
      WaitStart 0; WaitDone 0; AfterCellRunStart 0; AfterCellRunDone 0;
      ScrollToPosition 300 45; Update;
      SetActiveCellIndex 1; Select 1; RunStart 1]).
Proof. reflexivity. Qed.

(** X17: An empty notebook makes the run return without a single call to the
    host; otherwise the selection is cleared once, before anything else,
    and never again. *)
Theorem run_deselects_once (callback : option INotebookRunCallback)
    (widgets : list cell_view) :
  (widgets = [] ->
   runActiveNotebookCellByCell callback (Some widgets) = (Returns tt, []))
  /\ (widgets <> [] ->
      exists tr,
        (runActiveNotebookCellByCell callback (Some widgets)).2 = DeselectAll :: tr
        /\ ~ In DeselectAll tr).
Proof.
  split; [by intros ->|].
  intros Hne. unfold runActiveNotebookCellByCell.
  destruct (Nat.eqb_spec (length widgets) 0) as [Hz|Hnz];
    [by destruct widgets|].
  rewrite bind_trace. cbn [emit fst snd app].
  eexists. split; [reflexivity|].
  intros He. destruct (for_loop_events _ _ _ _ _ He) as (i & c & _ & _ & Hin & _).
  by destruct (iteration_events callback i c) as (_ & _ & _ & _ & Hno).
Qed.

Lemma run_deselects_once_witness :
  exists tr,
    (runActiveNotebookCellByCell None (Some [near_cell])).2 = DeselectAll :: tr
    /\ ~ In DeselectAll tr.
Proof.
  apply (run_deselects_once None [near_cell]). discriminate.
Defined.

(** X18: Whatever the promises do, [onBeforeScroll] and [onAfterScroll] are
    called, and the misprediction diagnostic is logged, only for a cell for
    which [waitForCellRun] has resolved and a scroll was predicted from its
    result, and only if the callback object supplies the member (the
    diagnostic goes with [onAfterScroll]).  The console is written to in
    two cases only: that diagnostic, and the problem logged when the host
    has no widgets, which is then the only event, the run throwing straight
    after it. *)
Theorem scroll_callbacks_only_when_predicted
    (callback : option INotebookRunCallback)
    (widgets : option (list cell_view)) (e : event) :
  In e (runActiveNotebookCellByCell callback widgets).2 ->
  scroll_callback e = true ->
  (widgets = None /\ e = ConsoleError cell_problem
   /\ runActiveNotebookCellByCell callback widgets
      = (Throws, [ConsoleError cell_problem]))
  \/ (exists ws i cell o,
        widgets = Some ws
        /\ ws !! i = Some cell
        /\ wait_outcome cell = Fulfilled o
        /\ predicted cell o = true
        /\ member callback (callback_of e) <> None
        /\ (forall msg, e = ConsoleError msg -> msg = mispredicted)
        /\ forall k, e = BeforeScrollStart k \/ e = AfterScrollStart k -> k = i).
Proof.
  intros H He. destruct widgets as [ws|].
  - right.
    destruct (run_events _ _ _ H) as [->|(i & c & Hi & Hc & Hin & _)];
      [discriminate He|].
    destruct (iteration_events callback i c) as (_ & _ & Hscroll & _).
    destruct (Hscroll e Hin He) as (o & Hw & Hp & Hm & Hmsg & Hk).
    exists ws, i, c, o. split_and!; done.
  - left. destruct H as [<-|[]]. done.
Qed.

Lemma scroll_callbacks_only_when_predicted_witness :
  exists (cell : cell_view) (o : option Node),
    wait_outcome cell = Fulfilled o /\ predicted cell o = true.
Proof.
  destruct (scroll_callbacks_only_when_predicted (Some all_callbacks)
              (Some [far_cell 0 220]) (BeforeScrollStart 0))
    as [(Hnone & _)|(ws & i & cell & o & _ & _ & Hw & Hp & _)].
  - vm_compute. tauto.
  - reflexivity.
  - discriminate Hnone.
  - exists cell, o. split; [exact Hw | exact Hp].
Defined.



End OrchestratorMore.

